(** * Fire detection loop (fire_project_10052025.py)

    A shallow embedding of the Streamlit script: the fire classifier
    (line 101), the cooldown gate on alerts (lines 103-110), camera
    initialisation (lines 55-66) and the detection loop with its
    read-failure recovery (lines 83-118).

    Modelling choices.
    - Wall-clock readings ([time.time()]) and sleep durations are exact
      rationals ([Q]); the rounding of float subtraction is not modelled.
      The cooldown is the integer returned by [st.number_input].
    - The outside world (camera, detector, clock, session flag) is an
      oracle: each loop iteration consumes one [Iteration] record holding
      what the calls of that iteration return.  A finite list of records
      is a finite prefix of a run; the loop may still be running when the
      list is used up.
    - Every call with an effect is logged as an [Event], in program order.
    - Python's [None] is [option]; a method call on [None] raises
      [AttributeError].
    - The body of [send_alert] (lines 74-77) runs on its own thread and
      the audio cue (lines 120-127) depends on when that thread ran; the
      model records the start of the thread and stops there. *)

From Stdlib Require Import List Bool ZArith QArith Qround Lia Lqa.
Import ListNotations.

Local Open Scope Z_scope.

(** ** Data *)

(** A decoded image; only its identity matters here. *)
Definition Frame : Type := nat.

(** A [cv2.VideoCapture] object, identified by its allocation order. *)
Definition Handle : Type := nat.

(** One element of [results[0].boxes]: class (a float tensor, read with
    [int(box.cls)]), confidence and corner coordinates. *)
Record Box : Type := mkBox {
  cls  : Q;
  conf : Q;
  xyxy : Q * Q * Q * Q
}.

(** Python's [int(x)] on a float: truncation toward zero. *)
Definition int (x : Q) : Z := Z.quot (Qnum x) (Zpos (Qden x)).

Definition class_id (box : Box) : Z := int (cls box).

(** Line 32. *)
Definition FIRE_CLASSES : list Z := [25; 26; 27].

(** Python's [x in xs] on a list of ints. *)
Definition py_in (x : Z) (xs : list Z) : bool := existsb (Z.eqb x) xs.

(** Line 101, with the class list as a parameter:
    [any(int(box.cls) in fire_classes for box in boxes)]. *)
Definition is_fire (boxes : list Box) (fire_classes : list Z) : bool :=
  existsb (fun box => py_in (int (cls box)) fire_classes) boxes.

Definition fire_detected (boxes : list Box) : bool :=
  is_fire boxes FIRE_CLASSES.

(** ** Settings (sidebar widgets, lines 35-45) *)

Inductive CameraOption : Type := Webcam | IPCamera.

Record Settings : Type := mkSettings {
  camera_option  : CameraOption;
  ip_cam_url     : list Byte.byte;
  conf_threshold : Q;
  enable_alerts  : bool;
  alert_cooldown : Z;       (* an int between 60 and 300 *)
  stop_button    : bool
}.

(** ** Alert policy (lines 103-108) *)

(** [x > n] for a float [x] and an int [n]. *)
Definition Qgt_bool (x : Q) (n : Z) : bool := negb (Qle_bool x (inject_Z n)).

(** The guard of line 106. *)
Definition cooldown_elapsed (cfg : Settings) (current_time last_alert_time : Q)
  : bool :=
  enable_alerts cfg && Qgt_bool (current_time - last_alert_time) (alert_cooldown cfg).

(** Lines 103-110 as a decision: whether [send_alert] is dispatched, and
    the value of [last_alert_time] afterwards. *)
Definition maybe_alert (cfg : Settings) (fire : bool)
  (current_time last_alert_time : Q) : bool * Q :=
  if fire then
    if cooldown_elapsed cfg current_time last_alert_time
    then (true, current_time)
    else (false, last_alert_time)
  else (false, last_alert_time).

(** ** Effects *)

(** The texts shown to the user. *)
Inductive Message : Type :=
| FailedToLoadModel         (* "Failed to load model: ..." *)
| FailedToInitializeCamera  (* "Failed to initialize camera!" *)
| CameraFeedLost            (* "Camera feed lost. Reconnecting..." *)
| FireDetected              (* "FIRE DETECTED! Please evacuate!" *)
| NoFireDetected            (* "No fire detected" *)
| DetectionStopped          (* "Detection stopped." *)
| ConfigureValidSource.     (* "Please configure a valid camera source" *)

Inductive Level : Type := Error | Warning | Success.

(** [st.error] and friends write to the page, [status_text.error] and
    friends overwrite the single status placeholder. *)
Inductive Widget : Type := Page | StatusText.

(** The argument of [cv2.VideoCapture]. *)
Inductive Source : Type :=
| Device (index : Z)
| Url (url : list Byte.byte).

Inductive Exn : Type := AttributeError | TypeError.

(** The calls the script makes, with their answers.  [EvThreadStart]
    is the start of the [send_alert] thread of line 107; it carries the
    value of [current_time] at that point. *)
Inductive Event : Type :=
| EvMessage (w : Widget) (l : Level) (m : Message)
| EvVideoCapture (h : Handle) (src : Source)   (* h = cv2.VideoCapture(src) *)
| EvIsOpened (h : Handle) (opened : bool)      (* h.isOpened() *)
| EvStopFlag (stop : bool)          (* st.session_state["stop_detection"] *)
| EvRead (h : Handle) (frame : option Frame)   (* h.read() *)
| EvSleep (seconds : Q)                        (* time.sleep(seconds) *)
| EvInfer (frame : Frame) (confidence : Q)     (* model(frame, conf=...) *)
| EvImage (frame : Frame)                      (* video_placeholder.image *)
| EvTime (t : Q)                               (* time.time() *)
| EvThreadStart (t : Q)
| EvRelease (h : Handle).                      (* h.release() *)

Definition Trace : Type := list Event.

(** The YOLO object; only its presence matters. *)
Definition Model : Type := unit.

(** Lines 23-29. [loads] tells whether [YOLO("yolov8n.pt")] returns. *)
Definition load_model (loads : bool) : Trace * option Model :=
  if loads then ([], Some tt)
  else ([EvMessage Page Error FailedToLoadModel], None).

(** Truthiness of a Python string. *)
Definition nonempty (s : list Byte.byte) : bool :=
  match s with [] => false | _ :: _ => true end.

(** Lines 56-61: which source [init_camera] opens, if any. *)
Definition camera_source (cfg : Settings) : option Source :=
  match camera_option cfg with
  | Webcam => Some (Device 0)
  | IPCamera =>
      if nonempty (ip_cam_url cfg) then Some (Url (ip_cam_url cfg)) else None
  end.

(** Lines 55-66. [h] names the object the constructor returns and
    [opens] is the answer of its [isOpened()]. *)
Definition init_camera (cfg : Settings) (h : Handle) (opens : bool)
  : Trace * option Handle :=
  match camera_source cfg with
  | None => ([], None)
  | Some src =>
      if opens
      then ([EvVideoCapture h src; EvIsOpened h true], Some h)
      else ([EvVideoCapture h src; EvIsOpened h false;
             EvMessage Page Error FailedToInitializeCamera], None)
  end.

(** ** The detection loop (lines 84-115) *)

(** The variables the loop reads and writes: the global [cap], the local
    [last_alert_time], and the number of capture objects built so far
    (the name of the next one). *)
Record LoopState : Type := mkLoopState {
  cap             : option Handle;
  last_alert_time : Q;
  created         : nat
}.

(** What the world answers during one pass through the loop. A field is
    consulted only if the pass reaches the call it belongs to. *)
Record Iteration : Type := mkIteration {
  it_opened : bool;         (* cap.isOpened(), line 86 *)
  it_stop   : bool;         (* st.session_state["stop_detection"], line 86 *)
  it_read   : option Frame; (* cap.read(), line 87; None when ret is False *)
  it_reopen : bool;         (* isOpened() of the capture built at line 91 *)
  it_boxes  : list Box;     (* results[0].boxes, line 96 *)
  it_time   : Q             (* time.time(), line 105 *)
}.

Inductive Control : Type :=
| Continue (s : LoopState)   (* back to the loop condition *)
| Leave (s : LoopState)      (* condition false, or break *)
| Raise (e : Exn).

(** Lines 103-110: what the alert block shows and dispatches. *)
Definition alert_events (fire alert : bool) (current_time : Q) : Trace :=
  if fire then
    [EvMessage StatusText Error FireDetected; EvTime current_time]
      ++ (if alert then [EvThreadStart current_time] else [])
  else [EvMessage StatusText Success NoFireDetected].

(** One evaluation of the loop condition and, if it holds, of the body. *)
Definition iteration (cfg : Settings) (model : option Model)
  (it : Iteration) (s : LoopState) : Trace * Control :=
  match cap s with
  | None => ([], Raise AttributeError)
  | Some h =>
      if negb (it_opened it) then ([EvIsOpened h false], Leave s)
      else if it_stop it then ([EvIsOpened h true; EvStopFlag true], Leave s)
      else
        let head := [EvIsOpened h true; EvStopFlag false; EvRead h (it_read it)] in
        match it_read it with
        | None =>
            let (tr, c) := init_camera cfg (created s) (it_reopen it) in
            let s' := mkLoopState c (last_alert_time s) (S (created s)) in
            (head ++ [EvMessage StatusText Warning CameraFeedLost; EvSleep 2] ++ tr,
             match c with
             | None => Leave s'
             | Some _ => Continue s'
             end)
        | Some frame =>
            match model with
            | None => (head, Raise TypeError)
            | Some _ =>
                let fire := fire_detected (it_boxes it) in
                let (alert, last) :=
                  maybe_alert cfg fire (it_time it) (last_alert_time s) in
                (head ++ [EvInfer frame (conf_threshold cfg); EvImage frame]
                   ++ alert_events fire alert (it_time it)
                   ++ [EvSleep 0.05],
                 Continue (mkLoopState (Some h) last (created s)))
            end
        end
  end.

Inductive LoopResult : Type :=
| StillRunning (s : LoopState)   (* the oracle is used up *)
| Left (s : LoopState)
| LoopRaised (e : Exn).

(** The [while] loop, driven by the answers of successive iterations. *)
Fixpoint loop (cfg : Settings) (model : option Model)
  (its : list Iteration) (s : LoopState) : Trace * LoopResult :=
  match its with
  | [] => ([], StillRunning s)
  | it :: rest =>
      match iteration cfg model it s with
      | (tr, Continue s') =>
          let (tr', r) := loop cfg model rest s' in (tr ++ tr', r)
      | (tr, Leave s') => (tr, Left s')
      | (tr, Raise e) => (tr, LoopRaised e)
      end
  end.

Inductive Outcome : Type :=
| Running (s : LoopState)
| Finished
| Raised (e : Exn).

(** Lines 114-115, after the loop. *)
Definition after_loop (s : LoopState) : Trace * Outcome :=
  match cap s with
  | None => ([], Raised AttributeError)
  | Some h => ([EvRelease h; EvMessage Page Success DetectionStopped], Finished)
  end.

(** What follows the loop, according to how it ended. *)
Definition finish (r : LoopResult) : Trace * Outcome :=
  match r with
  | StillRunning s => ([], Running s)
  | Left s => after_loop s
  | LoopRaised e => ([], Raised e)
  end.

(** Lines 86-115 from an arbitrary loop state. *)
Definition resume (cfg : Settings) (model : option Model)
  (its : list Iteration) (s : LoopState) : Trace * Outcome :=
  let (tr, r) := loop cfg model its s in
  let (tr', o) := finish r in
  (tr ++ tr', o).

(** The loop variables after line 84; [h] is the capture opened at
    line 68, the only one built so far. *)
Definition entry_state (h : Handle) : LoopState := mkLoopState (Some h) 0 1.

(** Lines 84-115: the branch taken when the guard of line 83 holds. *)
Definition detect (cfg : Settings) (model : option Model)
  (its : list Iteration) (h : Handle) : Trace * Outcome :=
  resume cfg model its (entry_state h).

(** ** The script *)

(** What the world answers during one run of the script. *)
Record Session : Type := mkSession {
  yolo_loads   : bool;              (* YOLO("yolov8n.pt") returns *)
  stored_stop  : option bool;       (* session_state["stop_detection"], if set *)
  camera_opens : bool;              (* isOpened() of the first capture *)
  iterations   : list Iteration
}.

(** Lines 48-52: the flag after the two [if]s. *)
Definition stop_detection (cfg : Settings) (env : Session) : bool :=
  if stop_button cfg then true
  else match stored_stop env with
       | None => false
       | Some b => b
       end.

(** Lines 31-118. *)
Definition main (cfg : Settings) (env : Session) : Trace * Outcome :=
  let (tr_model, model) := load_model (yolo_loads env) in
  let (tr_cap, c) := init_camera cfg 0%nat (camera_opens env) in
  let refuse := [EvMessage Page Warning ConfigureValidSource] in
  match c, model with
  | Some h, Some _ =>
      if stop_detection cfg env
      then (tr_model ++ tr_cap ++ [EvStopFlag true] ++ refuse, Finished)
      else
        let (tr, o) := detect cfg model (iterations env) h in
        (tr_model ++ tr_cap ++ [EvStopFlag false] ++ tr, o)
  | _, _ => (tr_model ++ tr_cap ++ refuse, Finished)
  end.

(** ** Sample runs *)

Definition webcam_settings : Settings :=
  mkSettings Webcam [] 0.5 true 60 false.

Definition fire_box : Box := mkBox 26 0.7 (10, 20, 110, 220)%Q.
Definition cat_box : Box := mkBox 15 0.9 (0, 0, 50, 50)%Q.

(** A pass that reads a frame and sees [boxes] at time [t]. *)
Definition sees (frame : Frame) (boxes : list Box) (t : Q) : Iteration :=
  mkIteration true false (Some frame) false boxes t.

(** A pass whose read fails; [reopen] tells whether the reopen works. *)
Definition glitch (reopen : bool) : Iteration :=
  mkIteration true false None reopen [] 0.

(** A pass that finds the stop flag set. *)
Definition stop_seen : Iteration :=
  mkIteration true true None false [] 0.

Definition fresh_session (its : list Iteration) : Session :=
  mkSession true None true its.

(** The same session with further passes appended to the oracle. *)
Definition extend (env : Session) (more : list Iteration) : Session :=
  mkSession (yolo_loads env) (stored_stop env) (camera_opens env)
    (iterations env ++ more).

(** ** Observations on traces *)

Definition Message_eqb (a b : Message) : bool :=
  match a, b with
  | FailedToLoadModel, FailedToLoadModel
  | FailedToInitializeCamera, FailedToInitializeCamera
  | CameraFeedLost, CameraFeedLost
  | FireDetected, FireDetected
  | NoFireDetected, NoFireDetected
  | DetectionStopped, DetectionStopped
  | ConfigureValidSource, ConfigureValidSource => true
  | _, _ => false
  end.

(** The event displays message [m], on whichever widget. *)
Definition shows (m : Message) (e : Event) : bool :=
  match e with
  | EvMessage _ _ m' => Message_eqb m m'
  | _ => false
  end.

Definition is_read (e : Event) : bool :=
  match e with EvRead _ _ => true | _ => false end.

Definition is_infer (e : Event) : bool :=
  match e with EvInfer _ _ => true | _ => false end.

Definition is_release (e : Event) : bool :=
  match e with EvRelease _ => true | _ => false end.

Definition is_stop_flag (e : Event) : bool :=
  match e with EvStopFlag _ => true | _ => false end.

Definition is_backoff (e : Event) : bool :=
  match e with EvSleep d => Qeq_bool d 2 | _ => false end.

Definition is_open_attempt (e : Event) : bool :=
  match e with EvVideoCapture _ _ => true | _ => false end.

Definition count (p : Event -> bool) (tr : Trace) : nat :=
  length (filter p tr).

(** The dispatch times of the alerts of a trace, in order. *)
Fixpoint alert_times (tr : Trace) : list Q :=
  match tr with
  | [] => []
  | EvThreadStart t :: tr' => t :: alert_times tr'
  | _ :: tr' => alert_times tr'
  end.

(** Each element exceeds its predecessor (at first [last]) by more than
    the cooldown. *)
Fixpoint spaced (cooldown : Z) (last : Q) (ts : list Q) : Prop :=
  match ts with
  | [] => True
  | t :: ts' => (inject_Z cooldown < t - last)%Q /\ spaced cooldown t ts'
  end.

(** The last element of [ts], or [d] if there is none. *)
Definition latest (d : Q) (ts : list Q) : Q := List.last ts d.

(** Every thread start of the trace comes directly after the clock
    reading it is stamped with; [prev] is the event before the trace. *)
Fixpoint stamped (prev : option Event) (tr : Trace) : Prop :=
  match tr with
  | [] => True
  | e :: tr' =>
      match e with
      | EvThreadStart t => prev = Some (EvTime t)
      | _ => True
      end /\ stamped (Some e) tr'
  end.

Fixpoint last_event (prev : option Event) (tr : Trace) : option Event :=
  match tr with
  | [] => prev
  | e :: tr' => last_event (Some e) tr'
  end.

(** Three sightings of fire at 100, 130 and 170 seconds with the default
    60 second cooldown: alerts at 100 and 170 only. *)
Definition three_sightings : Session :=
  fresh_session [sees 0%nat [fire_box] 100; sees 1%nat [fire_box] 130;
                 sees 2%nat [fire_box] 170].

(** ** Further observations *)

Definition is_frame_read (e : Event) : bool :=
  match e with EvRead _ (Some _) => true | _ => false end.

Definition is_failed_read (e : Event) : bool :=
  match e with EvRead _ None => true | _ => false end.

Definition is_image (e : Event) : bool :=
  match e with EvImage _ => true | _ => false end.

Definition is_time (e : Event) : bool :=
  match e with EvTime _ => true | _ => false end.

Definition is_thread_start (e : Event) : bool :=
  match e with EvThreadStart _ => true | _ => false end.

(** The guard of line 83 together with what lines 31 and 68 need to
    produce a model and a capture. *)
Definition may_detect (cfg : Settings) (env : Session) : bool :=
  yolo_loads env
  && match camera_source cfg with Some _ => true | None => false end
  && camera_opens env
  && negb (stop_detection cfg env).

(** What is done per frame read and per failed read, as counts. *)
Definition accounted (tr : Trace) : Prop :=
  count is_infer tr = count is_frame_read tr /\
  count is_image tr = count is_frame_read tr /\
  (count (shows FireDetected) tr + count (shows NoFireDetected) tr =
   count is_frame_read tr)%nat /\
  count is_time tr = count (shows FireDetected) tr /\
  (count is_thread_start tr <= count (shows FireDetected) tr)%nat /\
  count is_backoff tr = count is_failed_read tr /\
  ((count is_frame_read tr + count is_failed_read tr)%nat = count is_read tr).

(** Captures built, released and reported, as counts. *)
Definition captures_accounted (tr : Trace) : Prop :=
  count is_open_attempt tr = count is_failed_read tr /\
  count is_release tr = 0%nat /\
  count (shows DetectionStopped) tr = 0%nat.

(** Captures are named in the order they are built, and every
    [isOpened], [read] and [release] addresses the capture built last;
    [built] counts the captures built before the trace. *)
Fixpoint on_latest (built : nat) (tr : Trace) : Prop :=
  match tr with
  | [] => True
  | EvVideoCapture h _ :: tr' => h = built /\ on_latest (S built) tr'
  | EvIsOpened h _ :: tr' => S h = built /\ on_latest built tr'
  | EvRead h _ :: tr' => S h = built /\ on_latest built tr'
  | EvRelease h :: tr' => S h = built /\ on_latest built tr'
  | _ :: tr' => on_latest built tr'
  end.

(** ** Successive runs of the script in one browser session *)

(** What [st.session_state] holds under ["stop_detection"] once lines
    48-52 have run; no other line writes that key. *)
Definition stored_after (cfg : Settings) (env : Session) : option bool :=
  Some (stop_detection cfg env).

(** One rerun: the widget values of that rerun and what the world
    answers during it. *)
Record Rerun : Type := mkRerun {
  run_settings : Settings;
  run_loads    : bool;
  run_opens    : bool;
  run_passes   : list Iteration
}.

(** The runs of a session in order; each starts from the flag the
    previous one left in the session state. *)
Fixpoint session_runs (stored : option bool) (runs : list Rerun)
  : list (Trace * Outcome) :=
  match runs with
  | [] => []
  | r :: rest =>
      let env := mkSession (run_loads r) stored (run_opens r) (run_passes r) in
      main (run_settings r) env
        :: session_runs (stored_after (run_settings r) env) rest
  end.

(** ** Proof automation *)

(** Case analysis on one pass: unfold it and split on every answer. *)
Ltac split_iteration :=
  unfold iteration, init_camera;
  repeat match goal with
         | |- context [match ?x with _ => _ end] =>
             lazymatch x with
             | context [match _ with _ => _ end] => fail
             | _ => destruct x eqn:?
             end
         end.

(** The start-up of a run that fails the guard, by cases. *)
Ltac refused_cases cfg env :=
  unfold may_detect, main, load_model, init_camera in *;
  destruct (yolo_loads env); destruct (camera_source cfg);
  try destruct (camera_opens env);
  try destruct (stop_detection cfg env); simpl in *;
  try discriminate.

(** * Properties *)

(** ** Classifier *)

Lemma py_in_In (x : Z) (xs : list Z) : py_in x xs = true <-> In x xs.
Proof.
  unfold py_in. rewrite existsb_exists. split.
  - intros [y [Hy Heq]]. apply Z.eqb_eq in Heq. now subst.
  - intros H. exists x. split; [assumption | apply Z.eqb_refl].
Qed.

Lemma is_fire_map (boxes : list Box) (fire_classes : list Z) :
  is_fire boxes fire_classes =
  existsb (fun c => py_in c fire_classes) (map class_id boxes).
Proof.
  unfold is_fire, class_id. induction boxes as [|b bs IH]; simpl.
  - reflexivity.
  - now rewrite IH.
Qed.

(** C3: the classifier answers true exactly when some detection carries
    a class of the fire class set; it depends on the detections only
    through their classes (not on confidence or box), answers false on no
    detections, and line 101 is this function at [FIRE_CLASSES]. *)
Theorem is_fire_spec :
  (forall boxes fire_classes,
      is_fire boxes fire_classes = true <->
      exists box, In box boxes /\ In (class_id box) fire_classes) /\
  (forall boxes boxes' fire_classes,
      map class_id boxes = map class_id boxes' ->
      is_fire boxes fire_classes = is_fire boxes' fire_classes) /\
  (forall fire_classes, is_fire [] fire_classes = false) /\
  (forall boxes,
      fire_detected boxes = true <->
      exists box, In box boxes /\ In (class_id box) [25; 26; 27]).
Proof.
  assert (Hiff : forall boxes fire_classes,
             is_fire boxes fire_classes = true <->
             exists box, In box boxes /\ In (class_id box) fire_classes).
  { intros boxes fire_classes. unfold is_fire. rewrite existsb_exists.
    split; intros [b [Hb Hc]]; exists b; split; try assumption;
      now apply py_in_In. }
  split; [exact Hiff|]. split; [|split].
  - intros boxes boxes' fire_classes Hmap.
    now rewrite !is_fire_map, Hmap.
  - reflexivity.
  - intros boxes. apply Hiff.
Qed.

Lemma is_fire_spec_witness :
  is_fire [fire_box] FIRE_CLASSES =
  is_fire [mkBox 26 0.1 (0, 0, 1, 1)%Q] FIRE_CLASSES.
Proof.
  apply (proj1 (proj2 is_fire_spec) [fire_box] [mkBox 26 0.1 (0, 0, 1, 1)%Q]
           FIRE_CLASSES eq_refl).
Defined.

(** ** Alert policy *)

Lemma Qgt_bool_true (x : Q) (n : Z) :
  Qgt_bool x n = true <-> (inject_Z n < x)%Q.
Proof.
  unfold Qgt_bool. rewrite negb_true_iff. split.
  - intros H. apply Qnot_le_lt. intros Hle.
    apply Qle_bool_iff in Hle. congruence.
  - intros H. destruct (Qle_bool x (inject_Z n)) eqn:E; [|reflexivity].
    apply Qle_bool_iff in E. exfalso. apply (Qlt_not_le _ _ H E).
Qed.

Lemma Qgt_bool_false (x : Q) (n : Z) :
  Qgt_bool x n = false <-> (x <= inject_Z n)%Q.
Proof.
  unfold Qgt_bool. rewrite negb_false_iff. apply Qle_bool_iff.
Qed.

Lemma maybe_alert_fires (cfg : Settings) (fire : bool) (now last : Q) :
  fst (maybe_alert cfg fire now last) = true <->
  fire = true /\ enable_alerts cfg = true /\
  (inject_Z (alert_cooldown cfg) < now - last)%Q.
Proof.
  unfold maybe_alert, cooldown_elapsed.
  destruct fire; simpl; [|intuition discriminate].
  destruct (enable_alerts cfg); simpl; [|intuition discriminate].
  destruct (Qgt_bool (now - last) (alert_cooldown cfg)) eqn:E; simpl.
  - apply Qgt_bool_true in E. intuition.
  - apply Qgt_bool_false in E. split; [discriminate|].
    intros (_ & _ & H). exfalso. apply (Qlt_not_le _ _ H E).
Qed.

Lemma maybe_alert_state (cfg : Settings) (fire : bool) (now last : Q) :
  snd (maybe_alert cfg fire now last) =
  if fst (maybe_alert cfg fire now last) then now else last.
Proof.
  unfold maybe_alert. destruct fire; [|reflexivity].
  now destruct (cooldown_elapsed cfg now last).
Qed.

(** ** The loop, pass by pass *)

Lemma alert_times_app (a b : Trace) :
  alert_times (a ++ b) = alert_times a ++ alert_times b.
Proof.
  induction a as [|e a IH]; simpl; [reflexivity|].
  destruct e; simpl; now rewrite ?IH.
Qed.

Lemma count_app (p : Event -> bool) (a b : Trace) :
  (count p (a ++ b) = count p a + count p b)%nat.
Proof. unfold count. now rewrite filter_app, length_app. Qed.

Section Loop.

Variable cfg : Settings.
Variable model : option Model.

Lemma loop_app (pre more : list Iteration) (s : LoopState) :
  loop cfg model (pre ++ more) s =
  match loop cfg model pre s with
  | (tr, StillRunning s') =>
      let (tr', r) := loop cfg model more s' in (tr ++ tr', r)
  | other => other
  end.
Proof.
  revert s. induction pre as [|it pre IH]; intros s; simpl.
  - now destruct (loop cfg model more s).
  - destruct (iteration cfg model it s) as [tr [s'| s' | e]];
      try reflexivity.
    rewrite IH. destruct (loop cfg model pre s') as [tr1 [s1 | s1 | e1]];
      try reflexivity.
    destruct (loop cfg model more s1) as [tr2 r2].
    now rewrite app_assoc.
Qed.

(** A pass that continues leaves [cap] bound to a capture, and a
    source configured. *)
Lemma iteration_continue (it : Iteration) (s s' : LoopState) (tr : Trace) :
  iteration cfg model it s = (tr, Continue s') ->
  (exists h, cap s' = Some h) /\ (exists h, cap s = Some h).
Proof.
  split_iteration; intros H; inversion H; subst; simpl; eauto;
    discriminate.
Qed.

Lemma loop_running_cap (its : list Iteration) (s s' : LoopState) (tr : Trace) :
  (exists h, cap s = Some h) ->
  loop cfg model its s = (tr, StillRunning s') ->
  exists h, cap s' = Some h.
Proof.
  revert s tr. induction its as [|it its IH]; intros s tr Hc; simpl.
  - intros H. inversion H. now subst.
  - destruct (iteration cfg model it s) as [tr1 [s1 | s1 | e1]] eqn:E;
      try discriminate.
    destruct (loop cfg model its s1) as [tr2 r2] eqn:E2.
    intros H. inversion H. subst.
    apply (IH s1 tr2); [|assumption].
    now apply iteration_continue in E.
Qed.

(** The alerts of one pass: at most one, at the pass's clock reading,
    decided by the policy; [last_alert_time] follows. *)
Lemma iteration_alerts (it : Iteration) (s : LoopState) (tr : Trace)
  (c : Control) :
  iteration cfg model it s = (tr, c) ->
  (alert_times tr = [] /\
   forall s', c = Continue s' \/ c = Leave s' ->
              last_alert_time s' = last_alert_time s) \/
  (alert_times tr = [it_time it] /\
   (inject_Z (alert_cooldown cfg) < it_time it - last_alert_time s)%Q /\
   forall s', c = Continue s' \/ c = Leave s' ->
              last_alert_time s' = it_time it).
Proof.
  unfold iteration, init_camera.
  destruct (cap s) as [h|];
    [|intros H; inversion H; left; split;
      [reflexivity | intros s' [X | X]; discriminate]].
  destruct (it_opened it); simpl;
    [|intros H; inversion H; left; split;
      [reflexivity | intros s' [X | X]; inversion X; reflexivity]].
  destruct (it_stop it);
    [intros H; inversion H; left; split;
      [reflexivity | intros s' [X | X]; inversion X; reflexivity]|].
  destruct (it_read it) as [frame|].
  - destruct model as [m|];
      [|intros H; inversion H; left; split;
        [reflexivity | intros s' [X | X]; discriminate]].
    destruct (maybe_alert cfg (fire_detected (it_boxes it)) (it_time it)
                (last_alert_time s)) as [alert last] eqn:E.
    pose proof (maybe_alert_fires cfg (fire_detected (it_boxes it))
                  (it_time it) (last_alert_time s)) as Hf.
    pose proof (maybe_alert_state cfg (fire_detected (it_boxes it))
                  (it_time it) (last_alert_time s)) as Hs.
    rewrite E in Hf, Hs. simpl in Hf, Hs.
    intros H. inversion H. subst tr c. clear H.
    destruct alert.
    + right. destruct Hf as [Hf _]. destruct (Hf eq_refl) as (Hfire & _ & Hlt).
      rewrite Hfire. simpl. split; [reflexivity|]. split; [assumption|].
      intros s' [X | X]; inversion X; subst; reflexivity.
    + left. split.
      * unfold alert_events. now destruct (fire_detected (it_boxes it)).
      * intros s' [X | X]; inversion X; subst; reflexivity.
  - destruct (camera_source cfg) as [src|]; [destruct (it_reopen it)|];
      intros H; inversion H; left; (split; [reflexivity|]);
      intros s' [X | X]; inversion X; reflexivity.
Qed.

End Loop.

(** ** Cooldown *)

Lemma latest_cons (t d : Q) (ts : list Q) : latest d (t :: ts) = latest t ts.
Proof.
unfold latest. revert t d. induction ts as [|u ts IH]; intros t d.
- reflexivity.
- change (List.last (t :: u :: ts) d) with (List.last (u :: ts) d).
  now rewrite (IH u d), (IH u t).
Qed.

(** In a spaced list every element is more than one cooldown after the
  starting point, provided the cooldown is not negative. *)
Lemma spaced_after (cooldown : Z) (ts : list Q) :
0 <= cooldown ->
forall last t, spaced cooldown last ts -> In t ts ->
               (inject_Z cooldown < t - last)%Q.
Proof.
intros Hc.
assert (Hq : (0 <= inject_Z cooldown)%Q).
{ replace 0%Q with (inject_Z 0) by reflexivity.
  rewrite <- Zle_Qle. assumption. }
induction ts as [|u ts IH]; intros last t Hs Hin; [contradiction|].
destruct Hs as [Hu Hs]. destruct Hin as [-> | Hin]; [assumption|].
specialize (IH u t Hs Hin). lra.
Qed.

Lemma spaced_pairwise (cooldown : Z) (ts : list Q) :
0 <= cooldown ->
forall last i j ti tj,
  spaced cooldown last ts -> (i < j)%nat ->
  nth_error ts i = Some ti -> nth_error ts j = Some tj ->
  (inject_Z cooldown < tj - ti)%Q.
Proof.
intros Hc. induction ts as [|u ts IH]; intros last i j ti tj Hs Hij Hi Hj.
- destruct i; discriminate.
- destruct Hs as [Hu Hs]. destruct j as [|j]; [lia|].
  simpl in Hj. destruct i as [|i].
  + simpl in Hi. inversion Hi. subst u.
    apply (spaced_after cooldown ts Hc ti tj Hs).
    now apply nth_error_In with j.
  + simpl in Hi. apply (IH u i j ti tj Hs); [lia | assumption | assumption].
Qed.

Lemma stamped_app (a b : Trace) :
forall prev,
  stamped prev (a ++ b) <-> stamped prev a /\ stamped (last_event prev a) b.
Proof.
induction a as [|e a IH]; intros prev; simpl.
- tauto.
- rewrite IH. tauto.
Qed.

Section LoopAlerts.

Variable cfg : Settings.
Variable model : option Model.

Lemma loop_spaced (its : list Iteration) :
  forall s tr r,
    loop cfg model its s = (tr, r) ->
    spaced (alert_cooldown cfg) (last_alert_time s) (alert_times tr) /\
    forall s', r = StillRunning s' \/ r = Left s' ->
               last_alert_time s' = latest (last_alert_time s) (alert_times tr).
Proof.
  induction its as [|it its IH]; intros s tr r; simpl.
  - intros H. inversion H. subst. simpl. split; [exact I|].
    intros s' [X | X]; inversion X; reflexivity.
  - destruct (iteration cfg model it s) as [tr1 c] eqn:E.
    pose proof (iteration_alerts cfg model it s tr1 c E) as Ha.
    destruct c as [s1 | s1 | e1].
    + destruct (loop cfg model its s1) as [tr2 r2] eqn:E2.
      intros H. inversion H. subst tr r. clear H.
      destruct (IH s1 tr2 r2 E2) as [Hsp Hlast].
      rewrite alert_times_app.
      destruct Ha as [[Hnil Hst] | (Hone & Hlt & Hst)].
      * rewrite Hnil. simpl. rewrite <- (Hst s1) by (left; reflexivity).
        split; assumption.
      * rewrite Hone. cbn [app spaced]. rewrite latest_cons.
        rewrite (Hst s1) in Hsp, Hlast by (left; reflexivity).
        split; [split|]; assumption.
    + intros H. inversion H. subst tr r. clear H.
      destruct Ha as [[Hnil Hst] | (Hone & Hlt & Hst)].
      * rewrite Hnil. simpl. split; [exact I|].
        intros s' [X | X]; inversion X; subst.
        apply Hst. now right.
      * rewrite Hone. simpl. split; [split; [assumption | exact I]|].
        intros s' [X | X]; inversion X; subst.
        apply Hst. now right.
    + intros H. inversion H. subst tr r. clear H.
      destruct Ha as [[Hnil Hst] | (Hone & Hlt & Hst)].
      * rewrite Hnil. simpl. split; [exact I|].
        intros s' [X | X]; discriminate.
      * rewrite Hone. simpl. split; [split; [assumption | exact I]|].
        intros s' [X | X]; discriminate.
Qed.

Lemma iteration_stamped (it : Iteration) (s : LoopState) :
  forall prev, stamped prev (fst (iteration cfg model it s)).
Proof.
  intros prev. split_iteration; simpl; try tauto.
  all: unfold alert_events.
  all: destruct (fire_detected (it_boxes it)); simpl; try tauto.
  all: destruct b; simpl; tauto.
Qed.

Lemma loop_stamped (its : list Iteration) :
  forall s prev, stamped prev (fst (loop cfg model its s)).
Proof.
  induction its as [|it its IH]; intros s prev; simpl; [exact I|].
  pose proof (iteration_stamped it s prev) as H1.
  destruct (iteration cfg model it s) as [tr1 [s1 | s1 | e1]];
    simpl in *; try assumption.
  specialize (IH s1 (last_event prev tr1)).
  destruct (loop cfg model its s1) as [tr2 r2]. simpl in *.
  apply stamped_app. split; assumption.
Qed.

End LoopAlerts.

(** ** The script around the loop *)

(** A run that is still inside the loop loaded its model, opened its
    source as capture 0, found the stop flag clear at line 83, and has
    completed every pass of its oracle. *)
Lemma main_running (cfg : Settings) (env : Session) (tr : Trace)
  (s : LoopState) :
  main cfg env = (tr, Running s) ->
  exists src tr0,
    camera_source cfg = Some src /\
    yolo_loads env = true /\
    camera_opens env = true /\
    stop_detection cfg env = false /\
    tr = [EvVideoCapture 0%nat src; EvIsOpened 0%nat true; EvStopFlag false]
           ++ tr0 /\
    loop cfg (Some tt) (iterations env) (entry_state 0%nat)
    = (tr0, StillRunning s).
Proof.
  unfold main, load_model, init_camera, detect, resume.
  destruct (yolo_loads env); destruct (camera_source cfg) as [src|];
    try destruct (camera_opens env); simpl; try discriminate.
  destruct (stop_detection cfg env); try discriminate.
  destruct (loop cfg (Some tt) (iterations env) (entry_state 0%nat))
    as [tr0 [s0 | s0 | e0]]; simpl.
  - intros H. inversion H. subst. exists src, tr0.
    rewrite app_nil_r. repeat split; reflexivity.
  - unfold after_loop. destruct (cap s0); discriminate.
  - discriminate.
Qed.

(** Appending passes to the oracle of a run that is still inside the
    loop continues that run from where it stands. *)
Lemma main_extend (cfg : Settings) (env : Session) (more : list Iteration)
  (tr : Trace) (s : LoopState) :
  main cfg env = (tr, Running s) ->
  main cfg (extend env more) =
  let (tr', o) := resume cfg (Some tt) more s in (tr ++ tr', o).
Proof.
  intros H. destruct (main_running cfg env tr s H)
    as (src & tr0 & Hsrc & Hy & Ho & Hstop & -> & Hloop).
  clear H. unfold main, extend, load_model, init_camera, detect, resume.
  unfold stop_detection in *. simpl.
  rewrite Hy, Hsrc, Ho, Hstop, loop_app, Hloop.
  destruct (loop cfg (Some tt) more s) as [tr1 r1].
  destruct (finish r1) as [tr2 o2]. simpl.
  now rewrite app_assoc.
Qed.

Lemma finish_alerts (r : LoopResult) : alert_times (fst (finish r)) = [].
Proof.
  destruct r as [s | s | e]; simpl; try reflexivity.
  unfold after_loop. now destruct (cap s).
Qed.

Lemma finish_running (r : LoopResult) (s : LoopState) :
  snd (finish r) = Running s -> r = StillRunning s.
Proof.
  destruct r as [s0 | s0 | e]; simpl; try discriminate.
  - intros H. now inversion H.
  - unfold after_loop. destruct (cap s0); discriminate.
Qed.

Lemma finish_stamped (r : LoopResult) :
  forall prev, stamped prev (fst (finish r)).
Proof.
  intros prev. destruct r as [s | s | e]; simpl; try exact I.
  unfold after_loop. destruct (cap s); simpl; tauto.
Qed.

Lemma resume_alerts (cfg : Settings) (model : option Model)
  (its : list Iteration) (s : LoopState) :
  spaced (alert_cooldown cfg) (last_alert_time s)
    (alert_times (fst (resume cfg model its s))) /\
  (forall prev, stamped prev (fst (resume cfg model its s))) /\
  (forall s', snd (resume cfg model its s) = Running s' ->
              last_alert_time s' =
              latest (last_alert_time s)
                (alert_times (fst (resume cfg model its s)))).
Proof.
  unfold resume.
  pose proof (loop_stamped cfg model its s) as Hst.
  destruct (loop cfg model its s) as [tr r] eqn:E.
  destruct (loop_spaced cfg model its s tr r E) as [Hsp Hlast].
  pose proof (finish_alerts r) as Hf.
  pose proof (finish_running r) as Hr.
  pose proof (finish_stamped r) as Hfs.
  destruct (finish r) as [tr' o]. simpl in *.
  rewrite alert_times_app, Hf, app_nil_r.
  split; [assumption|]. split.
  - intros prev. apply stamped_app. split; [apply Hst | apply Hfs].
  - intros s' Ho. apply Hlast. left. now apply Hr.
Qed.

(** C1: in every run, whatever the camera, the detector and the clock
    answer, any two alerts are dispatched more than the cooldown apart
    (the later one after the earlier one), as long as the cooldown is
    not negative.  The time of an alert is the clock reading taken right
    before its thread is started, and while the loop runs
    [last_alert_time] is the time of the latest dispatch, so the window is
    counted from dispatches, not from detections. *)
Theorem cooldown_invariant (cfg : Settings) (env : Session) :
  0 <= alert_cooldown cfg ->
  let tr := fst (main cfg env) in
  (forall i j ti tj,
      (i < j)%nat ->
      nth_error (alert_times tr) i = Some ti ->
      nth_error (alert_times tr) j = Some tj ->
      (inject_Z (alert_cooldown cfg) < tj - ti)%Q) /\
  stamped None tr /\
  (forall s, snd (main cfg env) = Running s ->
             last_alert_time s = latest 0 (alert_times tr)).
Proof.
  intros Hc tr.
  assert (H : spaced (alert_cooldown cfg) 0 (alert_times tr) /\
              stamped None tr /\
              (forall s, snd (main cfg env) = Running s ->
                         last_alert_time s = latest 0 (alert_times tr))).
  { subst tr. unfold main, load_model, init_camera, detect.
    destruct (yolo_loads env); destruct (camera_source cfg) as [src|];
      try destruct (camera_opens env); simpl;
      try (split; [exact I | split; [tauto | discriminate]]).
    destruct (stop_detection cfg env); simpl;
      try (split; [exact I | split; [tauto | discriminate]]).
    destruct (resume_alerts cfg (Some tt) (iterations env)
                (entry_state 0%nat)) as (Hsp & Hst & Hlast).
    destruct (resume cfg (Some tt) (iterations env) (entry_state 0%nat))
      as [tr0 o]. simpl in *.
    split; [assumption|]. split; [|assumption].
    repeat split. apply Hst. }
  destruct H as (Hsp & Hst & Hlast).
  split; [|split; assumption].
  intros i j ti tj Hij Hi Hj.
  apply (spaced_pairwise (alert_cooldown cfg) (alert_times tr) Hc 0%Q i j);
    assumption.
Qed.

Lemma cooldown_invariant_witness :
  alert_times (fst (main webcam_settings three_sightings)) = [100; 170]%Q /\
  (inject_Z (alert_cooldown webcam_settings) < 170 - 100)%Q.
Proof.
  split; [reflexivity|].
  assert (Hc : 0 <= alert_cooldown webcam_settings) by (simpl; lia).
  apply (proj1 (cooldown_invariant webcam_settings three_sightings Hc)
           0%nat 1%nat 100%Q 170%Q); [lia | reflexivity | reflexivity].
Defined.

(** ** The passes of the loop, one equation per path *)

Section Passes.

Variable cfg : Settings.
Variable model : option Model.
Variable it : Iteration.
Variable s : LoopState.
Variable h : Handle.
Hypothesis Hcap : cap s = Some h.

(** Line 86, [cap.isOpened()] is false: the flag is not consulted. *)
Lemma iteration_closed :
  it_opened it = false ->
  iteration cfg model it s = ([EvIsOpened h false], Leave s).
Proof. intros Ho. unfold iteration. now rewrite Hcap, Ho. Qed.

(** Line 86, the stop flag is set. *)
Lemma iteration_stop :
  it_opened it = true -> it_stop it = true ->
  iteration cfg model it s = ([EvIsOpened h true; EvStopFlag true], Leave s).
Proof. intros Ho Hs. unfold iteration. now rewrite Hcap, Ho, Hs. Qed.

(** Lines 87-94, the read fails and the reopen works. *)
Lemma iteration_reopened (src : Source) :
  it_opened it = true -> it_stop it = false -> it_read it = None ->
  camera_source cfg = Some src -> it_reopen it = true ->
  iteration cfg model it s =
  ([EvIsOpened h true; EvStopFlag false; EvRead h None;
    EvMessage StatusText Warning CameraFeedLost; EvSleep 2;
    EvVideoCapture (created s) src; EvIsOpened (created s) true],
   Continue (mkLoopState (Some (created s)) (last_alert_time s)
               (S (created s)))).
Proof.
  intros Ho Hs Hr Hsrc Hre. unfold iteration, init_camera.
  now rewrite Hcap, Ho, Hs, Hr, Hsrc, Hre.
Qed.

(** Lines 87-93, the read fails and so does the reopen. *)
Lemma iteration_lost (src : Source) :
  it_opened it = true -> it_stop it = false -> it_read it = None ->
  camera_source cfg = Some src -> it_reopen it = false ->
  iteration cfg model it s =
  ([EvIsOpened h true; EvStopFlag false; EvRead h None;
    EvMessage StatusText Warning CameraFeedLost; EvSleep 2;
    EvVideoCapture (created s) src; EvIsOpened (created s) false;
    EvMessage Page Error FailedToInitializeCamera],
   Leave (mkLoopState None (last_alert_time s) (S (created s)))).
Proof.
  intros Ho Hs Hr Hsrc Hre. unfold iteration, init_camera.
  now rewrite Hcap, Ho, Hs, Hr, Hsrc, Hre.
Qed.

(** Lines 87-112, a frame is read. *)
Lemma iteration_frame (m : Model) (frame : Frame) :
  model = Some m ->
  it_opened it = true -> it_stop it = false -> it_read it = Some frame ->
  iteration cfg model it s =
  let fire := fire_detected (it_boxes it) in
  let decision := maybe_alert cfg fire (it_time it) (last_alert_time s) in
  ([EvIsOpened h true; EvStopFlag false; EvRead h (Some frame);
    EvInfer frame (conf_threshold cfg); EvImage frame]
     ++ alert_events fire (fst decision) (it_time it) ++ [EvSleep 0.05],
   Continue (mkLoopState (Some h) (snd decision) (created s))).
Proof.
  intros Hm Ho Hs Hr. unfold iteration.
  rewrite Hcap, Ho, Hs, Hr, Hm. simpl.
  now destruct (maybe_alert cfg (fire_detected (it_boxes it)) (it_time it)
                  (last_alert_time s)).
Qed.

End Passes.

(** C2: the policy dispatches nothing and keeps [last_alert_time] when no
    fire is seen, when alerts are off, or when at most the cooldown has
    passed since the last alert; it dispatches and sets [last_alert_time]
    to the current time when fire is seen, alerts are on and more than the
    cooldown has passed.  With a 60 second cooldown and alerts on: fire at
    100 after 0 alerts, fire at 130 after 100 is suppressed, fire at 170
    after 100 alerts.  A pass of the loop that reads a frame starts the
    alert thread exactly when the policy says so and leaves
    [last_alert_time] as the policy says. *)
Theorem maybe_alert_spec :
  (forall cfg fire now last,
      fire = false \/ enable_alerts cfg = false \/
      (now - last <= inject_Z (alert_cooldown cfg))%Q ->
      maybe_alert cfg fire now last = (false, last)) /\
  (forall cfg fire now last,
      fire = true -> enable_alerts cfg = true ->
      (inject_Z (alert_cooldown cfg) < now - last)%Q ->
      maybe_alert cfg fire now last = (true, now)) /\
  (forall cfg,
      enable_alerts cfg = true -> alert_cooldown cfg = 60 ->
      maybe_alert cfg (fire_detected [fire_box]) 100 0 = (true, 100%Q) /\
      maybe_alert cfg (fire_detected [fire_box]) 130 100 = (false, 100%Q) /\
      maybe_alert cfg (fire_detected [fire_box]) 170 100 = (true, 170%Q)) /\
  (forall cfg m it s h frame,
      cap s = Some h ->
      it_opened it = true -> it_stop it = false -> it_read it = Some frame ->
      let decision :=
        maybe_alert cfg (fire_detected (it_boxes it)) (it_time it)
          (last_alert_time s) in
      exists tr s',
        iteration cfg (Some m) it s = (tr, Continue s') /\
        alert_times tr = (if fst decision then [it_time it] else []) /\
        last_alert_time s' = snd decision).
Proof.
  split; [|split; [|split]].
  - intros cfg fire now last H.
    destruct (fst (maybe_alert cfg fire now last)) eqn:E.
    + apply maybe_alert_fires in E. destruct E as (Hf & He & Hlt).
      destruct H as [H | [H | H]]; try congruence.
      exfalso. apply (Qlt_not_le _ _ Hlt H).
    + pose proof (maybe_alert_state cfg fire now last) as Hs.
      rewrite E in Hs. destruct (maybe_alert cfg fire now last); simpl in *.
      now subst.
  - intros cfg fire now last Hf He Hlt.
    assert (E : fst (maybe_alert cfg fire now last) = true)
      by (apply maybe_alert_fires; auto).
    pose proof (maybe_alert_state cfg fire now last) as Hs.
    rewrite E in Hs. destruct (maybe_alert cfg fire now last); simpl in *.
    now subst.
  - intros cfg He Hc. unfold maybe_alert, cooldown_elapsed.
    rewrite He, Hc. repeat split; reflexivity.
  - intros cfg m it s h frame Hcap Ho Hs Hr decision.
    rewrite (iteration_frame cfg (Some m) it s h Hcap m frame eq_refl
               Ho Hs Hr).
    eexists. eexists. split; [reflexivity|]. split; [|reflexivity].
    subst decision. unfold maybe_alert, alert_events.
    destruct (fire_detected (it_boxes it)); [|reflexivity].
    now destruct (cooldown_elapsed cfg (it_time it) (last_alert_time s)).
Qed.

Lemma maybe_alert_spec_witness :
  maybe_alert webcam_settings true 100 0 = (true, 100%Q) /\
  maybe_alert webcam_settings true 130 100 = (false, 100%Q).
Proof.
  split.
  - apply (proj1 (proj2 maybe_alert_spec) webcam_settings true 100%Q 0%Q
             eq_refl eq_refl).
    reflexivity.
  - apply (proj1 maybe_alert_spec webcam_settings true 130%Q 100%Q).
    right. right. discriminate.
Defined.

(** ** What a run inside the loop has and has not done *)

Section LoopFacts.

Variable cfg : Settings.
Variable model : option Model.

Lemma iteration_facts (it : Iteration) (s s' : LoopState) (tr : Trace) :
  iteration cfg model it s = (tr, Continue s') ->
  existsb (shows DetectionStopped) tr = false /\
  count is_stop_flag tr = 1%nat /\
  count is_release tr = 0%nat /\
  (existsb (shows FireDetected) tr = false ->
   last_alert_time s' = last_alert_time s).
Proof.
  split_iteration; intros H; inversion H; subst; clear H;
    try (repeat split; reflexivity).
  match goal with
  | E : maybe_alert _ _ _ _ = _ |- _ =>
      unfold maybe_alert, alert_events in *;
      destruct (fire_detected (it_boxes it));
      [ destruct (cooldown_elapsed cfg (it_time it) (last_alert_time s));
        inversion E; subst; repeat split; discriminate
      | inversion E; subst; repeat split; reflexivity ]
  end.
Qed.

Lemma loop_facts (its : list Iteration) :
  forall s s' tr,
    loop cfg model its s = (tr, StillRunning s') ->
    existsb (shows DetectionStopped) tr = false /\
    count is_stop_flag tr = length its /\
    count is_release tr = 0%nat /\
    (existsb (shows FireDetected) tr = false ->
     last_alert_time s' = last_alert_time s).
Proof.
  induction its as [|it its IH]; intros s s' tr; simpl.
  - intros H. inversion H. subst. repeat split; reflexivity.
  - destruct (iteration cfg model it s) as [tr1 [s1 | s1 | e1]] eqn:E;
      try discriminate.
    destruct (loop cfg model its s1) as [tr2 r2] eqn:E2.
    intros H. inversion H. subst tr r2. clear H.
    destruct (iteration_facts it s s1 tr1 E) as (A1 & B1 & C1 & D1).
    destruct (IH s1 s' tr2 E2) as (A2 & B2 & C2 & D2).
    rewrite existsb_app, !count_app, A1, A2, B1, B2, C1, C2.
    repeat split; try reflexivity.
    rewrite existsb_app. intros Hn. apply orb_false_iff in Hn.
    destruct Hn as [Hn1 Hn2]. rewrite (D2 Hn2). now apply D1.
Qed.

End LoopFacts.

(** A run that is still inside the loop holds a capture, has shown no
    stop message, has released nothing, and has read the stop flag once
    at line 83 and once per completed pass. *)
Lemma running_facts (cfg : Settings) (env : Session) (tr : Trace)
  (s : LoopState) :
  main cfg env = (tr, Running s) ->
  (exists h, cap s = Some h) /\
  (exists src, camera_source cfg = Some src) /\
  existsb (shows DetectionStopped) tr = false /\
  count is_stop_flag tr = S (length (iterations env)) /\
  count is_release tr = 0%nat /\
  (existsb (shows FireDetected) tr = false -> last_alert_time s = 0%Q).
Proof.
  intros H. destruct (main_running cfg env tr s H)
    as (src & tr0 & Hsrc & _ & _ & _ & -> & Hloop).
  destruct (loop_facts cfg (Some tt) (iterations env) _ _ _ Hloop)
    as (A & B & C & D).
  split; [|split; [|split; [|split; [|split]]]].
  - apply (loop_running_cap cfg (Some tt) (iterations env)
             (entry_state 0%nat) s tr0); [|assumption].
    exists 0%nat. reflexivity.
  - now exists src.
  - rewrite existsb_app, A. reflexivity.
  - rewrite count_app, B. reflexivity.
  - rewrite count_app, C. reflexivity.
  - rewrite existsb_app. intros Hn. apply orb_false_iff in Hn.
    destruct Hn as [_ Hn]. now rewrite (D Hn).
Qed.

(** ** Recovery from a failed read *)

(** C4: in every run that is inside the loop, a pass whose read fails and
    whose reopen works shows the reconnecting warning in the status
    placeholder and nothing else, sleeps 2 seconds once, builds one new
    capture and goes back to the loop condition with it; the run is still
    inside the loop, and the next pass that reads a frame from the new
    capture handles it as any frame: inference, display, alert block,
    short sleep. *)
Theorem recovery_resumes (cfg : Settings) (env : Session) (tr : Trace)
  (s : LoopState) (failing next : Iteration) (frame : Frame) :
  main cfg env = (tr, Running s) ->
  it_opened failing = true -> it_stop failing = false ->
  it_read failing = None -> it_reopen failing = true ->
  it_opened next = true -> it_stop next = false ->
  it_read next = Some frame ->
  exists h src,
    cap s = Some h /\ camera_source cfg = Some src /\
    let h' := created s in
    let recovery :=
      [EvIsOpened h true; EvStopFlag false; EvRead h None;
       EvMessage StatusText Warning CameraFeedLost; EvSleep 2;
       EvVideoCapture h' src; EvIsOpened h' true] in
    let fire := fire_detected (it_boxes next) in
    let decision := maybe_alert cfg fire (it_time next) (last_alert_time s) in
    main cfg (extend env [failing]) =
    (tr ++ recovery,
     Running (mkLoopState (Some h') (last_alert_time s) (S h'))) /\
    count is_backoff recovery = 1%nat /\
    count is_open_attempt recovery = 1%nat /\
    main cfg (extend env [failing; next]) =
    (tr ++ recovery
        ++ [EvIsOpened h' true; EvStopFlag false; EvRead h' (Some frame);
            EvInfer frame (conf_threshold cfg); EvImage frame]
        ++ alert_events fire (fst decision) (it_time next)
        ++ [EvSleep 0.05],
     Running (mkLoopState (Some h') (snd decision) (S h'))).
Proof.
  intros Hrun Ho Hs Hr Hre Ho' Hs' Hr'.
  destruct (running_facts cfg env tr s Hrun) as ([h Hcap] & [src Hsrc] & _).
  exists h, src. split; [assumption|]. split; [assumption|].
  pose proof (iteration_reopened cfg (Some tt) failing s h Hcap src
                Ho Hs Hr Hsrc Hre) as E1.
  split; [|split; [reflexivity|split; [reflexivity|]]].
  - rewrite (main_extend cfg env [failing] tr s Hrun).
    unfold resume. simpl. rewrite E1. reflexivity.
  - rewrite (main_extend cfg env [failing; next] tr s Hrun).
    unfold resume. simpl. rewrite E1.
    rewrite (iteration_frame cfg (Some tt) next
               (mkLoopState (Some (created s)) (last_alert_time s)
                  (S (created s)))
               (created s) eq_refl tt frame eq_refl Ho' Hs' Hr').
    simpl. rewrite !app_nil_r. reflexivity.
Qed.

Lemma recovery_resumes_witness :
  main webcam_settings (fresh_session []) =
  ([EvVideoCapture 0%nat (Device 0); EvIsOpened 0%nat true; EvStopFlag false],
   Running (entry_state 0%nat)) /\
  snd (main webcam_settings
         (extend (fresh_session []) [glitch true; sees 7%nat [cat_box] 50])) =
  Running (mkLoopState (Some 1%nat) 0 2).
Proof.
  split; [reflexivity|].
  destruct (recovery_resumes webcam_settings (fresh_session []) _ _
              (glitch true) (sees 7%nat [cat_box] 50) 7%nat
              eq_refl eq_refl eq_refl eq_refl eq_refl eq_refl eq_refl eq_refl)
    as (h & src & _ & _ & _ & _ & _ & H).
  rewrite H. reflexivity.
Defined.

(** C5: in every run that is inside the loop, a pass whose read fails and
    whose reopen fails too ends the run whatever the oracle holds next:
    the page shows the camera initialisation error, the loop is left by
    [break], and the stop message of line 115 is never shown, because the
    release of line 114 is called on [None] and raises. *)
Theorem reopen_failure_ends_run (cfg : Settings) (env : Session) (tr : Trace)
  (s : LoopState) (failing : Iteration) (rest : list Iteration) :
  main cfg env = (tr, Running s) ->
  it_opened failing = true -> it_stop failing = false ->
  it_read failing = None -> it_reopen failing = false ->
  exists h src,
    cap s = Some h /\ camera_source cfg = Some src /\
    main cfg (extend env (failing :: rest)) =
    (tr ++ [EvIsOpened h true; EvStopFlag false; EvRead h None;
            EvMessage StatusText Warning CameraFeedLost; EvSleep 2;
            EvVideoCapture (created s) src; EvIsOpened (created s) false;
            EvMessage Page Error FailedToInitializeCamera],
     Raised AttributeError) /\
    existsb (shows FailedToInitializeCamera)
      (fst (main cfg (extend env (failing :: rest)))) = true /\
    existsb (shows DetectionStopped)
      (fst (main cfg (extend env (failing :: rest)))) = false.
Proof.
  intros Hrun Ho Hs Hr Hre.
  destruct (running_facts cfg env tr s Hrun)
    as ([h Hcap] & [src Hsrc] & Hns & _).
  exists h, src. split; [assumption|]. split; [assumption|].
  assert (E : main cfg (extend env (failing :: rest)) =
              (tr ++ [EvIsOpened h true; EvStopFlag false; EvRead h None;
                      EvMessage StatusText Warning CameraFeedLost; EvSleep 2;
                      EvVideoCapture (created s) src;
                      EvIsOpened (created s) false;
                      EvMessage Page Error FailedToInitializeCamera],
               Raised AttributeError)).
  { rewrite (main_extend cfg env (failing :: rest) tr s Hrun).
    unfold resume. simpl.
    rewrite (iteration_lost cfg (Some tt) failing s h Hcap src
               Ho Hs Hr Hsrc Hre).
    reflexivity. }
  rewrite E. simpl. rewrite !existsb_app, Hns. simpl.
  split; [reflexivity|]. split; [apply orb_true_r | reflexivity].
Qed.

Lemma reopen_failure_ends_run_witness :
  main webcam_settings (fresh_session []) =
  ([EvVideoCapture 0%nat (Device 0); EvIsOpened 0%nat true; EvStopFlag false],
   Running (entry_state 0%nat)) /\
  snd (main webcam_settings
         (extend (fresh_session []) [glitch false; sees 7%nat [cat_box] 50])) =
  Raised AttributeError.
Proof.
  split; [reflexivity|].
  destruct (reopen_failure_ends_run webcam_settings (fresh_session []) _ _
              (glitch false) [sees 7%nat [cat_box] 50]
              eq_refl eq_refl eq_refl eq_refl eq_refl)
    as (h & src & _ & _ & H & _).
  rewrite H. reflexivity.
Defined.

(** ** Model load failure *)

(** C7: when the model fails to load, the run shows the load error once,
    initialises the camera, fails the guard of line 83 before the stop
    flag is even consulted, shows the configuration warning and ends
    normally: no pass of the loop, no frame read, no inference. *)
Theorem model_load_failure (cfg : Settings) (env : Session) :
  yolo_loads env = false ->
  main cfg env =
  ([EvMessage Page Error FailedToLoadModel]
     ++ fst (init_camera cfg 0%nat (camera_opens env))
     ++ [EvMessage Page Warning ConfigureValidSource],
   Finished) /\
  count (shows FailedToLoadModel) (fst (main cfg env)) = 1%nat /\
  count is_stop_flag (fst (main cfg env)) = 0%nat /\
  count is_read (fst (main cfg env)) = 0%nat /\
  count is_infer (fst (main cfg env)) = 0%nat.
Proof.
  intros Hy. unfold main, load_model, init_camera. rewrite Hy.
  destruct (camera_source cfg) as [src|]; [destruct (camera_opens env)|];
    repeat split; reflexivity.
Qed.

Lemma model_load_failure_witness :
  main webcam_settings (mkSession false None true [sees 0%nat [fire_box] 100]) =
  ([EvMessage Page Error FailedToLoadModel;
    EvVideoCapture 0%nat (Device 0); EvIsOpened 0%nat true;
    EvMessage Page Warning ConfigureValidSource],
   Finished).
Proof.
  apply (model_load_failure webcam_settings
           (mkSession false None true [sees 0%nat [fire_box] 100]) eq_refl).
Defined.

(** ** Stopping *)

Lemma flag_read_position (cfg : Settings) (model : option Model)
  (it : Iteration) (s : LoopState) (n : nat) (b : bool) :
  nth_error (fst (iteration cfg model it s)) n = Some (EvStopFlag b) ->
  n = 1%nat /\ b = it_stop it /\
  exists h, nth_error (fst (iteration cfg model it s)) 0 =
            Some (EvIsOpened h true).
Proof.
  split_iteration; simpl; unfold alert_events;
    repeat match goal with
           | |- context [if ?x then _ else _] => destruct x
           end;
    simpl; intros H;
    do 12 (try (destruct n as [|n]; simpl in H; try discriminate H));
    inversion H; subst; repeat split; eauto.
Qed.

(** C8: the stop flag is read in the loop condition and nowhere else in a
    pass (it is the second event of the pass, right after
    [cap.isOpened()] answered true), so a run that is inside the loop has
    read it once per completed pass besides line 83; and the first pass
    that finds it set reads no frame: it leaves the loop, releases the
    capture and shows the stop message, whatever the oracle holds next. *)
Theorem stop_at_loop_head (cfg : Settings) (env : Session) (tr : Trace)
  (s : LoopState) (it : Iteration) (rest : list Iteration) :
  main cfg env = (tr, Running s) ->
  it_opened it = true -> it_stop it = true ->
  exists h,
    cap s = Some h /\
    main cfg (extend env (it :: rest)) =
    (tr ++ [EvIsOpened h true; EvStopFlag true; EvRelease h;
            EvMessage Page Success DetectionStopped],
     Finished) /\
    count is_read (fst (main cfg (extend env (it :: rest)))) =
    count is_read tr /\
    count is_stop_flag tr = S (length (iterations env)) /\
    forall model it' s' n b,
      nth_error (fst (iteration cfg model it' s')) n = Some (EvStopFlag b) ->
      n = 1%nat /\ b = it_stop it' /\
      exists h', nth_error (fst (iteration cfg model it' s')) 0 =
                 Some (EvIsOpened h' true).
Proof.
  intros Hrun Ho Hs.
  destruct (running_facts cfg env tr s Hrun)
    as ([h Hcap] & _ & _ & Hflags & _).
  exists h. split; [assumption|].
  assert (E : main cfg (extend env (it :: rest)) =
              (tr ++ [EvIsOpened h true; EvStopFlag true; EvRelease h;
                      EvMessage Page Success DetectionStopped],
               Finished)).
  { rewrite (main_extend cfg env (it :: rest) tr s Hrun).
    unfold resume. simpl.
    rewrite (iteration_stop cfg (Some tt) it s h Hcap Ho Hs).
    simpl. unfold after_loop. rewrite Hcap. reflexivity. }
  rewrite E. simpl. rewrite count_app. simpl.
  split; [reflexivity|]. split; [apply Nat.add_0_r|].
  split; [assumption|].
  intros model it' s' n b. apply flag_read_position.
Qed.

Lemma stop_at_loop_head_witness :
  main webcam_settings (fresh_session [sees 0%nat [fire_box] 100]) =
  ([EvVideoCapture 0%nat (Device 0); EvIsOpened 0%nat true; EvStopFlag false;
    EvIsOpened 0%nat true; EvStopFlag false; EvRead 0%nat (Some 0%nat);
    EvInfer 0%nat 0.5; EvImage 0%nat;
    EvMessage StatusText Error FireDetected; EvTime 100; EvThreadStart 100;
    EvSleep 0.05],
   Running (mkLoopState (Some 0%nat) 100 1)) /\
  snd (main webcam_settings
         (extend (fresh_session [sees 0%nat [fire_box] 100])
            [stop_seen; sees 1%nat [fire_box] 200])) = Finished.
Proof.
  split; [reflexivity|].
  destruct (stop_at_loop_head webcam_settings
              (fresh_session [sees 0%nat [fire_box] 100]) _ _
              stop_seen [sees 1%nat [fire_box] 200]
              eq_refl eq_refl eq_refl)
    as (h & _ & H & _).
  rewrite H. reflexivity.
Defined.

(** ** The first alert *)

(** C10: the loop starts with [last_alert_time] at 0, and it is still 0
    when the first pass that detects fire begins; if alerts are enabled
    and the clock then reads more than the cooldown, that pass starts the
    alert thread and records the reading. *)
Theorem first_fire_alerts (cfg : Settings) (env : Session) (tr : Trace)
  (s : LoopState) (it : Iteration) (frame : Frame) :
  main cfg env = (tr, Running s) ->
  existsb (shows FireDetected) tr = false ->
  it_opened it = true -> it_stop it = false -> it_read it = Some frame ->
  fire_detected (it_boxes it) = true ->
  enable_alerts cfg = true ->
  (inject_Z (alert_cooldown cfg) < it_time it)%Q ->
  exists h,
    cap s = Some h /\
    last_alert_time (entry_state h) = 0%Q /\
    last_alert_time s = 0%Q /\
    main cfg (extend env [it]) =
    (tr ++ [EvIsOpened h true; EvStopFlag false; EvRead h (Some frame);
            EvInfer frame (conf_threshold cfg); EvImage frame;
            EvMessage StatusText Error FireDetected;
            EvTime (it_time it); EvThreadStart (it_time it); EvSleep 0.05],
     Running (mkLoopState (Some h) (it_time it) (created s))).
Proof.
  intros Hrun Hnone Ho Hs Hr Hfire Hen Hlt.
  destruct (running_facts cfg env tr s Hrun)
    as ([h Hcap] & _ & _ & _ & _ & Hlast).
  specialize (Hlast Hnone).
  exists h. split; [assumption|]. split; [reflexivity|].
  split; [assumption|].
  rewrite (main_extend cfg env [it] tr s Hrun).
  unfold resume. simpl.
  rewrite (iteration_frame cfg (Some tt) it s h Hcap tt frame eq_refl
             Ho Hs Hr).
  assert (Hd : fst (maybe_alert cfg (fire_detected (it_boxes it)) (it_time it)
                      (last_alert_time s)) = true).
  { apply maybe_alert_fires. repeat split; try assumption.
    rewrite Hlast. lra. }
  pose proof (maybe_alert_state cfg (fire_detected (it_boxes it)) (it_time it)
                (last_alert_time s)) as Hst.
  rewrite Hd in Hst. simpl. rewrite Hd, Hst, Hfire. reflexivity.
Qed.

Lemma first_fire_alerts_witness :
  main webcam_settings
    (fresh_session [sees 0%nat [cat_box] 10; glitch true]) =
  ([EvVideoCapture 0%nat (Device 0); EvIsOpened 0%nat true; EvStopFlag false;
    EvIsOpened 0%nat true; EvStopFlag false; EvRead 0%nat (Some 0%nat);
    EvInfer 0%nat 0.5; EvImage 0%nat;
    EvMessage StatusText Success NoFireDetected; EvSleep 0.05;
    EvIsOpened 0%nat true; EvStopFlag false; EvRead 0%nat None;
    EvMessage StatusText Warning CameraFeedLost; EvSleep 2;
    EvVideoCapture 1%nat (Device 0); EvIsOpened 1%nat true],
   Running (mkLoopState (Some 1%nat) 0 2)) /\
  snd (main webcam_settings
         (extend (fresh_session [sees 0%nat [cat_box] 10; glitch true])
            [sees 1%nat [fire_box] 61])) =
  Running (mkLoopState (Some 1%nat) 61 2).
Proof.
  split; [reflexivity|].
  destruct (first_fire_alerts webcam_settings
              (fresh_session [sees 0%nat [cat_box] 10; glitch true]) _ _
              (sees 1%nat [fire_box] 61) 1%nat
              eq_refl eq_refl eq_refl eq_refl eq_refl eq_refl eq_refl eq_refl)
    as (h & Hcap & _ & _ & H).
  rewrite H. inversion Hcap. reflexivity.
Defined.

(** ** Releasing the capture *)

(** C6 fails on the path through [break]: after a failed reopen [cap] is
    [None], line 114 calls [release] on it and raises, and the capture
    opened at line 68 is never released.  After a successful reopen the
    new capture is released at the end, the first one never is. *)
Theorem release_after_reopen :
  main webcam_settings (fresh_session [glitch false]) =
  ([EvVideoCapture 0%nat (Device 0); EvIsOpened 0%nat true; EvStopFlag false;
    EvIsOpened 0%nat true; EvStopFlag false; EvRead 0%nat None;
    EvMessage StatusText Warning CameraFeedLost; EvSleep 2;
    EvVideoCapture 1%nat (Device 0); EvIsOpened 1%nat false;
    EvMessage Page Error FailedToInitializeCamera],
   Raised AttributeError) /\
  main webcam_settings (fresh_session [glitch true; stop_seen]) =
  ([EvVideoCapture 0%nat (Device 0); EvIsOpened 0%nat true; EvStopFlag false;
    EvIsOpened 0%nat true; EvStopFlag false; EvRead 0%nat None;
    EvMessage StatusText Warning CameraFeedLost; EvSleep 2;
    EvVideoCapture 1%nat (Device 0); EvIsOpened 1%nat true;
    EvIsOpened 1%nat true; EvStopFlag true; EvRelease 1%nat;
    EvMessage Page Success DetectionStopped],
   Finished).
Proof. split; reflexivity. Qed.

(** * Further properties of the script *)

(** ** Whether detection starts *)

(** When the guard of line 83 fails the run shows the configuration
    warning last and ends, having read no frame and released nothing. *)
Lemma main_refused (cfg : Settings) (env : Session) :
  may_detect cfg env = false ->
  snd (main cfg env) = Finished /\
  List.last (fst (main cfg env)) (EvStopFlag false) =
  EvMessage Page Warning ConfigureValidSource /\
  count is_read (fst (main cfg env)) = 0%nat /\
  count is_infer (fst (main cfg env)) = 0%nat /\
  count is_release (fst (main cfg env)) = 0%nat /\
  count (shows DetectionStopped) (fst (main cfg env)) = 0%nat.
Proof.
  unfold may_detect, main, load_model, init_camera.
  destruct (yolo_loads env); destruct (camera_source cfg) as [src|];
    try destruct (camera_opens env);
    try destruct (stop_detection cfg env); simpl;
    try discriminate; intros _; repeat split; reflexivity.
Qed.

Lemma main_admitted (cfg : Settings) (env : Session) :
  may_detect cfg env = true ->
  exists src tr0,
    camera_source cfg = Some src /\
    resume cfg (Some tt) (iterations env) (entry_state 0%nat) =
    (tr0, snd (main cfg env)) /\
    fst (main cfg env) =
    [EvVideoCapture 0%nat src; EvIsOpened 0%nat true; EvStopFlag false] ++ tr0.
Proof.
  unfold may_detect, main, load_model, init_camera, detect.
  destruct (yolo_loads env); destruct (camera_source cfg) as [src|];
    try destruct (camera_opens env);
    try destruct (stop_detection cfg env); simpl;
    try discriminate; intros _.
  destruct (resume cfg (Some tt) (iterations env) (entry_state 0%nat))
    as [tr0 o].
  exists src, tr0. repeat split.
Qed.

(** X1: detection starts exactly when the model loads, a source is
    configured, the capture opens and the stop flag is clear.  Then the
    run is the opening of capture 0, one reading of the flag and the loop
    from its entry state.  Otherwise, whichever of the four is missing,
    the run shows the configuration warning last and ends normally with
    no frame read, no inference, no release and no stop message. *)
Theorem detection_starts_iff (cfg : Settings) (env : Session) :
  (may_detect cfg env = true ->
   exists src tr0,
     camera_source cfg = Some src /\
     resume cfg (Some tt) (iterations env) (entry_state 0%nat) =
     (tr0, snd (main cfg env)) /\
     fst (main cfg env) =
     [EvVideoCapture 0%nat src; EvIsOpened 0%nat true; EvStopFlag false]
       ++ tr0) /\
  (may_detect cfg env = false ->
   snd (main cfg env) = Finished /\
   List.last (fst (main cfg env)) (EvStopFlag false) =
   EvMessage Page Warning ConfigureValidSource /\
   count is_read (fst (main cfg env)) = 0%nat /\
   count is_infer (fst (main cfg env)) = 0%nat /\
   count is_release (fst (main cfg env)) = 0%nat /\
   count (shows DetectionStopped) (fst (main cfg env)) = 0%nat).
Proof.
  split; [apply main_admitted | apply main_refused].
Qed.

Lemma detection_starts_iff_witness :
  snd (main webcam_settings (fresh_session [stop_seen])) = Finished /\
  snd (main (mkSettings IPCamera [] 0.5 true 60 false)
         (fresh_session [stop_seen])) = Finished.
Proof.
  split.
  - destruct (proj1 (detection_starts_iff webcam_settings
                       (fresh_session [stop_seen])) eq_refl)
      as (src & tr0 & _ & H & _).
    inversion H. reflexivity.
  - apply (proj2 (detection_starts_iff
                    (mkSettings IPCamera [] 0.5 true 60 false)
                    (fresh_session [stop_seen])) eq_refl).
Defined.

(** X2: with the IP camera option and an empty URL [init_camera] builds
    no capture and shows no error of its own; the run consists of the
    model load report, if any, and the configuration warning. *)
Theorem empty_url_opens_nothing (cfg : Settings) (env : Session) :
  camera_option cfg = IPCamera -> ip_cam_url cfg = [] ->
  (forall h opens, init_camera cfg h opens = ([], None)) /\
  main cfg env =
  (fst (load_model (yolo_loads env))
     ++ [EvMessage Page Warning ConfigureValidSource],
   Finished) /\
  count is_open_attempt (fst (main cfg env)) = 0%nat /\
  count (shows FailedToInitializeCamera) (fst (main cfg env)) = 0%nat.
Proof.
  intros Hopt Hurl.
  assert (Hsrc : camera_source cfg = None).
  { unfold camera_source. now rewrite Hopt, Hurl. }
  unfold main, init_camera, load_model. rewrite Hsrc.
  destruct (yolo_loads env); repeat split; reflexivity.
Qed.

Lemma empty_url_opens_nothing_witness :
  main (mkSettings IPCamera [] 0.5 true 60 false) (fresh_session []) =
  ([EvMessage Page Warning ConfigureValidSource], Finished).
Proof.
  apply (proj1 (proj2 (empty_url_opens_nothing
                         (mkSettings IPCamera [] 0.5 true 60 false)
                         (fresh_session []) eq_refl eq_refl))).
Defined.

(** X3: when the first capture does not open, the run shows the camera
    error once, then the configuration warning, and ends normally: the
    stop flag is not read and no pass of the loop runs, whatever the
    model did. *)
Theorem camera_unavailable (cfg : Settings) (env : Session) (src : Source) :
  camera_source cfg = Some src -> camera_opens env = false ->
  main cfg env =
  (fst (load_model (yolo_loads env))
     ++ [EvVideoCapture 0%nat src; EvIsOpened 0%nat false;
         EvMessage Page Error FailedToInitializeCamera;
         EvMessage Page Warning ConfigureValidSource],
   Finished) /\
  count (shows FailedToInitializeCamera) (fst (main cfg env)) = 1%nat /\
  count is_stop_flag (fst (main cfg env)) = 0%nat /\
  count is_read (fst (main cfg env)) = 0%nat.
Proof.
  intros Hsrc Ho. unfold main, init_camera, load_model. rewrite Hsrc, Ho.
  destruct (yolo_loads env); repeat split; reflexivity.
Qed.

Lemma camera_unavailable_witness :
  main webcam_settings (mkSession true None false [stop_seen]) =
  ([EvVideoCapture 0%nat (Device 0); EvIsOpened 0%nat false;
    EvMessage Page Error FailedToInitializeCamera;
    EvMessage Page Warning ConfigureValidSource],
   Finished).
Proof.
  apply (proj1 (camera_unavailable webcam_settings
                  (mkSession true None false [stop_seen]) (Device 0)
                  eq_refl eq_refl)).
Defined.

(** ** The stop flag across reruns *)

Lemma stop_detection_stored (cfg : Settings) (env : Session) :
  stored_stop env = Some true -> stop_detection cfg env = true.
Proof.
  intros H. unfold stop_detection. rewrite H. now destruct (stop_button cfg).
Qed.

Lemma may_detect_stopped (cfg : Settings) (env : Session) :
  stop_detection cfg env = true -> may_detect cfg env = false.
Proof.
  intros H. unfold may_detect. rewrite H. simpl. apply andb_false_r.
Qed.

Lemma stopped_session (runs : list Rerun) :
  forall res,
    In res (session_runs (Some true) runs) ->
    snd res = Finished /\ count is_read (fst res) = 0%nat /\
    count is_infer (fst res) = 0%nat.
Proof.
  induction runs as [|r runs IH]; intros res; simpl; [contradiction|].
  intros [<- | Hin].
  - destruct (main_refused (run_settings r)
                (mkSession (run_loads r) (Some true) (run_opens r)
                   (run_passes r))) as (A & _ & B & C & _).
    + apply may_detect_stopped. now apply stop_detection_stored.
    + repeat split; assumption.
  - apply IH. unfold stored_after in Hin.
    rewrite stop_detection_stored in Hin by reflexivity. exact Hin.
Qed.

(** X4: the stop flag is never cleared.  Lines 48-52 store it in the
    session state and only ever set it; so from the rerun in which the
    stop button is pressed on, every run of the session, whatever its
    settings and whether or not the button is pressed again, fails the
    guard of line 83: it ends without reading a frame or calling the
    model. *)
Theorem stop_is_sticky (stored : option bool) (r : Rerun)
  (later : list Rerun) (res : Trace * Outcome) :
  stop_button (run_settings r) = true ->
  In res (session_runs stored (r :: later)) ->
  snd res = Finished /\ count is_read (fst res) = 0%nat /\
  count is_infer (fst res) = 0%nat.
Proof.
  intros Hb. simpl.
  assert (Hs : stop_detection (run_settings r)
                 (mkSession (run_loads r) stored (run_opens r)
                    (run_passes r)) = true).
  { unfold stop_detection. now rewrite Hb. }
  intros [<- | Hin].
  - destruct (main_refused (run_settings r)
                (mkSession (run_loads r) stored (run_opens r)
                   (run_passes r)) (may_detect_stopped _ _ Hs))
      as (A & _ & B & C & _).
    repeat split; assumption.
  - unfold stored_after in Hin. rewrite Hs in Hin.
    now apply (stopped_session later).
Qed.

Lemma stop_is_sticky_witness :
  snd (main webcam_settings
         (mkSession true (Some true) true [sees 0%nat [fire_box] 100])) =
  Finished.
Proof.
  apply (proj1 (stop_is_sticky None
                  (mkRerun (mkSettings Webcam [] 0.5 true 60 true)
                     true true [])
                  [mkRerun webcam_settings true true
                     [sees 0%nat [fire_box] 100]]
                  (main webcam_settings
                     (mkSession true (Some true) true
                        [sees 0%nat [fire_box] 100]))
                  eq_refl (or_intror (or_introl eq_refl)))).
Defined.

(** ** A capture that reports closed *)

(** X5: when [cap.isOpened()] answers false in the loop condition the
    stop flag is not consulted and no frame is read; the loop ends, the
    capture is released and the run reports a stop like any other. *)
Theorem closed_capture_stops (cfg : Settings) (env : Session) (tr : Trace)
  (s : LoopState) (it : Iteration) (rest : list Iteration) :
  main cfg env = (tr, Running s) ->
  it_opened it = false ->
  exists h,
    cap s = Some h /\
    main cfg (extend env (it :: rest)) =
    (tr ++ [EvIsOpened h false; EvRelease h;
            EvMessage Page Success DetectionStopped],
     Finished).
Proof.
  intros Hrun Ho.
  destruct (running_facts cfg env tr s Hrun) as ([h Hcap] & _).
  exists h. split; [assumption|].
  rewrite (main_extend cfg env (it :: rest) tr s Hrun).
  unfold resume. simpl.
  rewrite (iteration_closed cfg (Some tt) it s h Hcap Ho).
  simpl. unfold after_loop. rewrite Hcap. reflexivity.
Qed.

Lemma closed_capture_stops_witness :
  snd (main webcam_settings
         (extend (fresh_session [])
            [mkIteration false true None false [] 0;
             sees 1%nat [fire_box] 200])) = Finished.
Proof.
  destruct (closed_capture_stops webcam_settings (fresh_session []) _ _
              (mkIteration false true None false [] 0)
              [sees 1%nat [fire_box] 200] eq_refl eq_refl)
    as (h & _ & H).
  rewrite H. reflexivity.
Defined.

(** ** Induction over the passes of a run *)

(** A property of traces that holds of the empty trace, is kept by
    concatenation and holds of every single pass holds of the loop. *)
Lemma loop_trace_ind (cfg : Settings) (model : option Model)
  (P : Trace -> Prop) :
  P [] ->
  (forall a b, P a -> P b -> P (a ++ b)) ->
  (forall it s, P (fst (iteration cfg model it s))) ->
  forall its s, P (fst (loop cfg model its s)).
Proof.
  intros Hnil Happ Hpass. induction its as [|it its IH]; intros s; simpl.
  - exact Hnil.
  - pose proof (Hpass it s) as H1.
    destruct (iteration cfg model it s) as [tr1 [s1 | s1 | e1]];
      simpl in *; try assumption.
    specialize (IH s1). destruct (loop cfg model its s1) as [tr2 r2].
    simpl in *. now apply Happ.
Qed.

(** A run that passes the guard: its trace is the start-up, the loop
    and what follows the loop. *)
Lemma main_entered (cfg : Settings) (env : Session) :
  may_detect cfg env = true ->
  exists src tr0 r,
    camera_source cfg = Some src /\
    loop cfg (Some tt) (iterations env) (entry_state 0%nat) = (tr0, r) /\
    main cfg env =
    ([EvVideoCapture 0%nat src; EvIsOpened 0%nat true; EvStopFlag false]
       ++ tr0 ++ fst (finish r),
     snd (finish r)).
Proof.
  unfold may_detect, main, load_model, init_camera, detect, resume.
  destruct (yolo_loads env); destruct (camera_source cfg) as [src|];
    try destruct (camera_opens env);
    try destruct (stop_detection cfg env); simpl;
    try discriminate; intros _.
  destruct (loop cfg (Some tt) (iterations env) (entry_state 0%nat))
    as [tr0 r].
  exists src, tr0, r. destruct (finish r) as [tr1 o]. repeat split.
Qed.

(** ** What a run never does *)

Section Accounting.

Variable cfg : Settings.

Lemma pass_accounting (m : Model) (it : Iteration) (s : LoopState) :
  accounted (fst (iteration cfg (Some m) it s)).
Proof.
  unfold accounted. split_iteration; simpl; unfold alert_events;
    repeat match goal with
           | |- context [if ?x then _ else _] => destruct x
           end;
    simpl; unfold count; simpl; repeat split; lia.
Qed.

Lemma accounted_app (a b : Trace) :
  accounted a -> accounted b -> accounted (a ++ b).
Proof. unfold accounted. intros Ha Hb. rewrite !count_app. lia. Qed.

Lemma loop_accounting (m : Model) (its : list Iteration) (s : LoopState) :
  accounted (fst (loop cfg (Some m) its s)).
Proof.
  revert its s. apply (loop_trace_ind cfg (Some m) accounted).
  - unfold accounted. repeat split; apply Nat.le_refl.
  - apply accounted_app.
  - intros it s. apply pass_accounting.
Qed.

Lemma finish_accounting (r : LoopResult) : accounted (fst (finish r)).
Proof.
  destruct r as [s | s | e]; simpl; try (repeat split; apply Nat.le_refl).
  unfold after_loop.
  destruct (cap s); simpl; repeat split; apply Nat.le_refl.
Qed.

Lemma finish_counts (r : LoopResult) (p : Event -> bool) :
  (forall h, p (EvRelease h) = false) ->
  p (EvMessage Page Success DetectionStopped) = false ->
  count p (fst (finish r)) = 0%nat.
Proof.
  intros Hr Hm. destruct r as [s | s | e]; simpl; try reflexivity.
  unfold after_loop. destruct (cap s) as [h|]; simpl; [|reflexivity].
  unfold count. simpl. now rewrite Hr, Hm.
Qed.

(** X6: in every run each frame read is passed to the model once and
    displayed once and is followed by exactly one of the two status
    texts; the clock is read once per fire status and at most one alert
    thread is started per fire status; each failed read is followed by
    one 2 second sleep; no inference, display, status, clock reading,
    thread start or backoff happens otherwise. *)
Theorem run_accounting (env : Session) :
  let tr := fst (main cfg env) in
  count is_infer tr = count is_frame_read tr /\
  count is_image tr = count is_frame_read tr /\
  (count (shows FireDetected) tr + count (shows NoFireDetected) tr =
   count is_frame_read tr)%nat /\
  count is_time tr = count (shows FireDetected) tr /\
  (count is_thread_start tr <= count (shows FireDetected) tr)%nat /\
  count is_backoff tr = count is_failed_read tr /\
  ((count is_frame_read tr + count is_failed_read tr)%nat = count is_read tr).
Proof.
  change (accounted (fst (main cfg env))).
  destruct (may_detect cfg env) eqn:E.
  - destruct (main_entered cfg env E) as (src & tr0 & r & _ & Hloop & ->).
    pose proof (loop_accounting tt (iterations env) (entry_state 0%nat)) as H.
    unfold Model in *. rewrite Hloop in H. cbn [fst].
    apply accounted_app; [|apply accounted_app].
    + repeat split; apply Nat.le_refl.
    + exact H.
    + apply finish_accounting.
  - refused_cases cfg env; repeat split; apply Nat.le_refl.
Qed.

Lemma pass_captures (model : option Model) (it : Iteration) (s : LoopState)
  (src : Source) :
  camera_source cfg = Some src ->
  captures_accounted (fst (iteration cfg model it s)).
Proof.
  intros Hsrc. unfold captures_accounted, iteration, init_camera.
  rewrite Hsrc.
  split_iteration; simpl; unfold alert_events;
    repeat match goal with
           | |- context [if ?x then _ else _] => destruct x
           end;
    repeat split; reflexivity.
Qed.

Lemma loop_captures (model : option Model) (src : Source)
  (its : list Iteration) (s : LoopState) :
  camera_source cfg = Some src ->
  captures_accounted (fst (loop cfg model its s)).
Proof.
  intros Hsrc. revert its s.
  apply (loop_trace_ind cfg model captures_accounted).
  - repeat split.
  - unfold captures_accounted. intros a b Ha Hb. rewrite !count_app. lia.
  - intros it s. now apply pass_captures with src.
Qed.

(** X7: a run releases a capture at most once, and exactly when it shows
    the stop message; a run that passes the guard of line 83 builds one
    capture at line 68 and one more for every failed read.  So a run with
    [n] failed reads builds [n + 1] captures and releases at most one. *)
Theorem capture_accounting (env : Session) :
  let tr := fst (main cfg env) in
  count is_release tr = count (shows DetectionStopped) tr /\
  (count is_release tr <= 1)%nat /\
  (may_detect cfg env = true ->
   count is_open_attempt tr = S (count is_failed_read tr)).
Proof.
  destruct (may_detect cfg env) eqn:E.
  - destruct (main_entered cfg env E) as (src & tr0 & r & Hsrc & Hloop & ->).
    pose proof (loop_captures (Some tt) src (iterations env)
                  (entry_state 0%nat) Hsrc) as H.
    rewrite Hloop in H. unfold captures_accounted in H. simpl in H.
    destruct H as (A & B & C).
    cbn [fst]. rewrite !count_app, A, B, C.
    rewrite !(finish_counts r is_open_attempt),
      !(finish_counts r is_failed_read) by reflexivity.
    destruct r as [s | s | e]; simpl; unfold count; simpl;
      try (repeat split; lia).
    unfold after_loop. destruct (cap s); simpl; repeat split; lia.
  - refused_cases cfg env; unfold count; simpl; repeat split;
      try lia; discriminate.
Qed.

End Accounting.

Lemma capture_accounting_witness :
  count is_open_attempt
    (fst (main webcam_settings (fresh_session [glitch true; stop_seen]))) =
  2%nat.
Proof.
  apply (proj2 (proj2 (capture_accounting webcam_settings
                         (fresh_session [glitch true; stop_seen]))) eq_refl).
Defined.

(** ** Exceptions *)

Section Exits.

Variable cfg : Settings.
Variable src : Source.
Hypothesis Hsrc : camera_source cfg = Some src.




End Exits.



(** ** More on the cooldown *)

Lemma spaced_latest (cooldown : Z) (ts : list Q) :
  0 <= cooldown ->
  forall last,
    spaced cooldown last ts ->
    latest last ts = last \/ (inject_Z cooldown < latest last ts - last)%Q.
Proof.
  intros Hc.
  assert (Hq : (0 <= inject_Z cooldown)%Q).
  { replace 0%Q with (inject_Z 0) by reflexivity.
    rewrite <- Zle_Qle. assumption. }
  induction ts as [|t ts IH]; intros last Hs.
  - now left.
  - destruct Hs as [Ht Hs]. right. rewrite latest_cons.
    destruct (IH t Hs) as [-> | Hgap]; [assumption | lra].
Qed.

(** X9: while the loop runs [last_alert_time] never decreases and is
    never negative, as long as the cooldown is not negative: between two
    points of a run it is either unchanged or has grown by more than the
    cooldown. *)
Theorem last_alert_time_monotone (cfg : Settings) (env : Session)
  (more : list Iteration) (tr tr' : Trace) (s s' : LoopState) :
  0 <= alert_cooldown cfg ->
  main cfg env = (tr, Running s) ->
  main cfg (extend env more) = (tr', Running s') ->
  (0 <= last_alert_time s)%Q /\
  (last_alert_time s <= last_alert_time s')%Q /\
  (last_alert_time s' = last_alert_time s \/
   (inject_Z (alert_cooldown cfg) < last_alert_time s' - last_alert_time s)%Q).
Proof.
  intros Hc Hrun Hext.
  assert (Hq : (0 <= inject_Z (alert_cooldown cfg))%Q).
  { replace 0%Q with (inject_Z 0) by reflexivity.
    rewrite <- Zle_Qle. assumption. }
  destruct (main_running cfg env tr s Hrun)
    as (src & tr0 & _ & _ & _ & _ & _ & Hloop).
  destruct (loop_spaced cfg (Some tt) (iterations env) _ _ _ Hloop)
    as [Hsp0 Hl0].
  specialize (Hl0 s (or_introl eq_refl)).
  rewrite (main_extend cfg env more tr s Hrun) in Hext.
  destruct (resume_alerts cfg (Some tt) more s) as (Hsp & _ & Hl).
  destruct (resume cfg (Some tt) more s) as [tr1 o1].
  inversion Hext. subst tr' o1. simpl in *.
  specialize (Hl s' eq_refl).
  pose proof (spaced_latest _ _ Hc _ Hsp0) as G0.
  pose proof (spaced_latest _ _ Hc _ Hsp) as G1.
  rewrite <- Hl0 in G0. rewrite <- Hl in G1. simpl in G0.
  split; [|split].
  - destruct G0 as [-> | G0]; lra.
  - destruct G1 as [-> | G1]; lra.
  - exact G1.
Qed.

Lemma last_alert_time_monotone_witness :
  (last_alert_time (mkLoopState (Some 0%nat) 100 1)
   <= last_alert_time (mkLoopState (Some 0%nat) 170 1))%Q.
Proof.
  apply (proj1 (proj2 (last_alert_time_monotone webcam_settings
                         (fresh_session [sees 0%nat [fire_box] 100])
                         [sees 1%nat [fire_box] 130;
                          sees 2%nat [fire_box] 170]
                         _ _ (mkLoopState (Some 0%nat) 100 1)
                         (mkLoopState (Some 0%nat) 170 1)
                         ltac:(simpl; lia) eq_refl eq_refl))).
Defined.

Section Suppression.

Variable cfg : Settings.
Variable model : option Model.

Lemma loop_suppressed (its : list Iteration) :
  forall s tr r,
    (forall it, In it its ->
                (it_time it - last_alert_time s
                 <= inject_Z (alert_cooldown cfg))%Q) ->
    loop cfg model its s = (tr, r) ->
    alert_times tr = [] /\
    forall s', r = StillRunning s' \/ r = Left s' ->
               last_alert_time s' = last_alert_time s.
Proof.
  induction its as [|it its IH]; intros s tr r Hin; simpl.
  - intros H. inversion H. subst. split; [reflexivity|].
    intros s' [X | X]; inversion X; reflexivity.
  - destruct (iteration cfg model it s) as [tr1 c] eqn:E.
    destruct (iteration_alerts cfg model it s tr1 c E)
      as [[Hnil Hst] | (_ & Hlt & _)].
    2:{ exfalso. apply (Qlt_not_le _ _ Hlt). apply Hin. now left. }
    destruct c as [s1 | s1 | e1].
    + destruct (loop cfg model its s1) as [tr2 r2] eqn:E2.
      intros H. inversion H. subst tr r. clear H.
      pose proof (Hst s1 (or_introl eq_refl)) as H1.
      destruct (IH s1 tr2 r2) as [A B]; [|assumption|].
      * intros it' Hit'. rewrite H1. apply Hin. now right.
      * rewrite alert_times_app, Hnil, A. split; [reflexivity|].
        intros s' Hs'. rewrite (B s' Hs'). exact H1.
    + intros H. inversion H. subst tr r. split; [assumption|].
      intros s' [X | X]; inversion X; subst. apply Hst. now right.
    + intros H. inversion H. subst tr r. split; [assumption|].
      intros s' [X | X]; discriminate.
Qed.

End Suppression.

(** X10: from any point of a run, passes whose clock readings are all
    within the cooldown after [last_alert_time] start no alert thread,
    however often fire is detected in them, and leave [last_alert_time]
    as it was. *)
Theorem suppressed_within_cooldown (cfg : Settings) (env : Session)
  (more : list Iteration) (tr : Trace) (s : LoopState) :
  main cfg env = (tr, Running s) ->
  (forall it, In it more ->
              (it_time it - last_alert_time s
               <= inject_Z (alert_cooldown cfg))%Q) ->
  alert_times (fst (main cfg (extend env more))) = alert_times tr /\
  forall s', snd (main cfg (extend env more)) = Running s' ->
             last_alert_time s' = last_alert_time s.
Proof.
  intros Hrun Hin. rewrite (main_extend cfg env more tr s Hrun).
  unfold resume. destruct (loop cfg (Some tt) more s) as [tr1 r] eqn:E.
  destruct (loop_suppressed cfg (Some tt) more s tr1 r Hin E) as [A B].
  pose proof (finish_alerts r) as Hf. pose proof (finish_running r) as Hr.
  destruct (finish r) as [tr2 o]. simpl in *.
  rewrite !alert_times_app, A, Hf, app_nil_r. split; [reflexivity|].
  intros s' Ho. apply B. left. now apply Hr.
Qed.

Lemma suppressed_within_cooldown_witness :
  alert_times
    (fst (main webcam_settings
            (extend (fresh_session [sees 0%nat [fire_box] 100])
               [sees 1%nat [fire_box] 130; sees 2%nat [fire_box] 160]))) =
  [100%Q].
Proof.
  apply (proj1 (suppressed_within_cooldown webcam_settings
                  (fresh_session [sees 0%nat [fire_box] 100])
                  [sees 1%nat [fire_box] 130; sees 2%nat [fire_box] 160]
                  _ (mkLoopState (Some 0%nat) 100 1) eq_refl
                  ltac:(simpl; intros it [<- | [<- | []]]; discriminate))).
Defined.

(** ** Alerts switched off *)

Lemma pass_silent (cfg : Settings) (model : option Model) (it : Iteration)
  (s : LoopState) :
  enable_alerts cfg = false ->
  alert_times (fst (iteration cfg model it s)) = [].
Proof.
  intros He. destruct (iteration cfg model it s) as [tr c] eqn:E.
  destruct (iteration_alerts cfg model it s tr c E)
    as [[Hnil _] | (Hone & _ & _)]; [assumption|].
  exfalso. revert E Hone. unfold iteration, init_camera, maybe_alert,
    cooldown_elapsed, alert_events. rewrite He. simpl.
  split_iteration; intros H; inversion H; subst; simpl; discriminate.
Qed.

(** X11: with the alert checkbox off no alert thread is ever started,
    while the fire status is still shown for every frame with fire. *)
Theorem alerts_off_no_thread (cfg : Settings) (env : Session) :
  enable_alerts cfg = false ->
  alert_times (fst (main cfg env)) = [] /\
  forall tr s it frame,
    main cfg env = (tr, Running s) ->
    it_opened it = true -> it_stop it = false -> it_read it = Some frame ->
    fire_detected (it_boxes it) = true ->
    exists h,
      main cfg (extend env [it]) =
      (tr ++ [EvIsOpened h true; EvStopFlag false; EvRead h (Some frame);
              EvInfer frame (conf_threshold cfg); EvImage frame;
              EvMessage StatusText Error FireDetected; EvTime (it_time it);
              EvSleep 0.05],
       Running s).
Proof.
  intros He. split.
  - destruct (may_detect cfg env) eqn:E.
    + destruct (main_entered cfg env E) as (src & tr0 & r & _ & Hloop & ->).
      pose proof (loop_trace_ind cfg (Some tt) (fun tr => alert_times tr = [])
                    eq_refl) as H.
      specialize (H (fun a b Ha Hb =>
                       eq_trans (alert_times_app a b)
                         (eq_trans (f_equal2 (@app Q) Ha Hb) eq_refl))).
      specialize (H (fun it s => pass_silent cfg (Some tt) it s He)
                    (iterations env) (entry_state 0%nat)).
      unfold Model in *. rewrite Hloop in H. cbn [fst] in *.
      simpl. now rewrite alert_times_app, H, finish_alerts.
    + refused_cases cfg env; reflexivity.
  - intros tr s it frame Hrun Ho Hs Hr Hfire.
    destruct (running_facts cfg env tr s Hrun) as ([h Hcap] & _).
    exists h. rewrite (main_extend cfg env [it] tr s Hrun).
    unfold resume. simpl.
    rewrite (iteration_frame cfg (Some tt) it s h Hcap tt frame eq_refl
               Ho Hs Hr).
    unfold maybe_alert, cooldown_elapsed. rewrite Hfire, He. simpl.
    destruct s. simpl in *. now rewrite Hcap.
Qed.

Lemma alerts_off_no_thread_witness :
  alert_times
    (fst (main (mkSettings Webcam [] 0.5 false 60 false)
            (fresh_session [sees 0%nat [fire_box] 100;
                            sees 1%nat [fire_box] 500]))) = [].
Proof.
  apply (proj1 (alerts_off_no_thread (mkSettings Webcam [] 0.5 false 60 false)
                  (fresh_session [sees 0%nat [fire_box] 100;
                                  sees 1%nat [fire_box] 500]) eq_refl)).
Defined.

(** ** Classes read from float tensors *)

Lemma int_range (x : Q) (z : Z) :
  0 < z ->
  int x = z <-> (inject_Z z <= x /\ x < inject_Z (z + 1))%Q.
Proof.
  intros Hz. destruct x as [n d]. unfold int, Qle, Qlt, inject_Z. simpl.
  assert (Hd : 0 < Z.pos d) by lia.
  destruct (Z.le_gt_cases 0 n) as [Hn | Hn].
  - rewrite Z.quot_div_nonneg by lia.
    pose proof (Z.div_mod n (Z.pos d) ltac:(lia)) as Hdm.
    pose proof (Z.mod_pos_bound n (Z.pos d) Hd) as Hm.
    split.
    + intros <-. nia.
    + intros [H1 H2]. nia.
  - assert (Hq : n ÷ Z.pos d <= 0).
    { replace n with (- (- n)) by lia. rewrite Z.quot_opp_l by lia.
      pose proof (Z.quot_pos (- n) (Z.pos d) ltac:(lia) Hd). lia. }
    split.
    + intros H. lia.
    + intros [H1 H2]. nia.
Qed.

(** X12: the class of a box is read by truncating its float, so line 101
    reports fire exactly when some box has a class value from 25 up to,
    but not including, 28. *)
Theorem fire_class_range (boxes : list Box) :
  fire_detected boxes = true <->
  exists box, In box boxes /\ (25 <= cls box /\ cls box < 28)%Q.
Proof.
  unfold fire_detected, is_fire. rewrite existsb_exists.
  assert (H : forall x, py_in (int x) FIRE_CLASSES = true <->
                        (25 <= x /\ x < 28)%Q).
  { intros x. rewrite py_in_In. unfold FIRE_CLASSES. simpl.
    pose proof (int_range x 25 ltac:(lia)) as H25.
    pose proof (int_range x 26 ltac:(lia)) as H26.
    pose proof (int_range x 27 ltac:(lia)) as H27.
    simpl in H25, H26, H27. unfold inject_Z in H25, H26, H27.
    split.
    - intros [E | [E | [E | []]]]; symmetry in E;
        [apply H25 in E | apply H26 in E | apply H27 in E]; lra.
    - intros [Hlo Hhi].
      destruct (Qlt_le_dec x 26) as [L26 | G26].
      + left. symmetry. apply H25. split; assumption.
      + destruct (Qlt_le_dec x 27) as [L27 | G27].
        * right. left. symmetry. apply H26. split; assumption.
        * right. right. left. symmetry. apply H27. split; assumption. }
  split; intros [b [Hb Hc]]; exists b; split; try assumption; now apply H.
Qed.

Lemma fire_class_range_witness :
  fire_detected [mkBox 27.9 0.3 (0, 0, 1, 1)%Q] = true.
Proof.
  apply (proj2 (fire_class_range [mkBox 27.9 0.3 (0, 0, 1, 1)%Q])).
  exists (mkBox 27.9 0.3 (0, 0, 1, 1)%Q).
  split; [now left|]. split; [discriminate | reflexivity].
Defined.

(** ** Which capture the loop works on *)

Lemma on_latest_app (a b : Trace) :
  forall built,
    on_latest built (a ++ b) <->
    on_latest built a /\ on_latest (built + count is_open_attempt a) b.
Proof.
  induction a as [|e a IH]; intros built.
  - simpl. rewrite Nat.add_0_r. tauto.
  - destruct e; simpl; rewrite ?IH; unfold count; simpl;
      rewrite ?Nat.add_succ_r; simpl; tauto.
Qed.

Section Latest.

Variable cfg : Settings.
Variable model : option Model.
Variable src : Source.
Hypothesis Hsrc : camera_source cfg = Some src.

(** The loop holds the capture built last. *)
Let holds_latest (s : LoopState) : Prop :=
  forall h, cap s = Some h -> created s = S h.

Lemma pass_on_latest (it : Iteration) (s : LoopState) (tr : Trace)
  (c : Control) :
  holds_latest s ->
  iteration cfg model it s = (tr, c) ->
  on_latest (created s) tr /\
  forall s', c = Continue s' \/ c = Leave s' ->
             created s' = (created s + count is_open_attempt tr)%nat /\
             holds_latest s'.
Proof.
  intros Hh. unfold iteration, init_camera. rewrite Hsrc.
  destruct (cap s) as [h|] eqn:Hcap.
  2:{ intros H. inversion H. split; [exact I|].
      intros s' [X | X]; discriminate. }
  specialize (Hh h Hcap).
  split_iteration; intros H; inversion H; subst; clear H;
    unfold alert_events;
    repeat match goal with
           | |- context [if ?x then _ else _] => destruct x
           end;
    (split;
     [ simpl; rewrite ?Hh; tauto
     | intros s' [X | X]; inversion X; subst; clear X; unfold count; simpl;
       rewrite ?Nat.add_0_r, ?Nat.add_1_r;
       (split; [reflexivity|]); unfold holds_latest; simpl;
       intros h' Hh'; inversion Hh'; subst; congruence ]).
Qed.

Lemma loop_on_latest (its : list Iteration) :
  forall s tr r,
    holds_latest s ->
    loop cfg model its s = (tr, r) ->
    on_latest (created s) tr /\
    forall s', r = StillRunning s' \/ r = Left s' ->
               created s' = (created s + count is_open_attempt tr)%nat /\
               holds_latest s'.
Proof.
  induction its as [|it its IH]; intros s tr r Hh; simpl.
  - intros H. inversion H. subst. split; [exact I|].
    intros s' [X | X]; inversion X; subst.
    split; [now rewrite Nat.add_0_r | assumption].
  - destruct (iteration cfg model it s) as [tr1 c] eqn:E.
    destruct (pass_on_latest it s tr1 c Hh E) as [A B].
    destruct c as [s1 | s1 | e1].
    + destruct (B s1 (or_introl eq_refl)) as [B1 B2].
      destruct (loop cfg model its s1) as [tr2 r2] eqn:E2.
      intros H. inversion H. subst tr r. clear H.
      destruct (IH s1 tr2 r2 B2 E2) as [A2 C2].
      split.
      * apply on_latest_app. split; [assumption|]. now rewrite <- B1.
      * intros s' Hs'. destruct (C2 s' Hs') as [D1 D2].
        split; [|assumption]. rewrite count_app. lia.
    + intros H. inversion H. subst tr r. split; [assumption|].
      intros s' [X | X]; inversion X; subst. apply B. now right.
    + intros H. inversion H. subst tr r. split; [assumption|].
      intros s' [X | X]; discriminate.
Qed.

End Latest.

(** X13: in every run the captures are built one after the other, and
    every [isOpened], [read] and [release] goes to the capture built
    last: once a reopen has been attempted the earlier capture is never
    asked, read or released again. *)
Theorem run_on_latest (cfg : Settings) (env : Session) :
  on_latest 0 (fst (main cfg env)).
Proof.
  destruct (may_detect cfg env) eqn:E.
  - destruct (main_entered cfg env E) as (src & tr0 & r & Hsrc & Hloop & ->).
    assert (Hh : forall h, cap (entry_state 0%nat) = Some h ->
                           created (entry_state 0%nat) = S h).
    { intros h H. inversion H. reflexivity. }
    destruct (loop_on_latest cfg (Some tt) src Hsrc (iterations env)
                (entry_state 0%nat) tr0 r Hh Hloop) as [A B].
    cbn [fst]. simpl. repeat split.
    apply on_latest_app. split; [exact A|].
    destruct r as [s | s | e]; simpl; try exact I.
    destruct (B s (or_intror eq_refl)) as [B1 B2].
    unfold after_loop. destruct (cap s) as [h|] eqn:Hc; simpl; [|exact I].
    split; [|exact I]. rewrite <- (B2 h eq_refl). exact B1.
  - refused_cases cfg env; simpl; tauto.
Qed.

Lemma run_on_latest_witness :
  on_latest 0
    (fst (main webcam_settings (fresh_session [glitch true; stop_seen]))).
Proof.
  apply (run_on_latest webcam_settings (fresh_session [glitch true; stop_seen])).
Defined.

(** ** How many alerts a run can start *)

Lemma spaced_length (cooldown : Z) (ts : list Q) :
  forall last,
    spaced cooldown last ts ->
    (inject_Z (Z.of_nat (length ts)) * inject_Z cooldown + last
     <= latest last ts)%Q.
Proof.
  induction ts as [|t ts IH]; intros last Hs.
  - change (0 * inject_Z cooldown + last <= last)%Q.
    rewrite Qmult_0_l, Qplus_0_l. apply Qle_refl.
  - destruct Hs as [Ht Hs]. rewrite latest_cons.
    specialize (IH t Hs).
    change (length (t :: ts)) with (S (length ts)).
    rewrite Nat2Z.inj_succ. unfold Z.succ. rewrite inject_Z_plus.
    change (inject_Z 1) with 1%Q. nra.
Qed.

Lemma latest_In (d : Q) (ts : list Q) : ts <> [] -> In (latest d ts) ts.
Proof.
  induction ts as [|t ts IH]; [congruence|]. intros _.
  rewrite latest_cons. destruct ts as [|u ts]; [now left|].
  right. rewrite latest_cons, <- (latest_cons u d ts). apply IH. discriminate.
Qed.

Lemma loop_alert_sources (cfg : Settings) (model : option Model)
  (its : list Iteration) :
  forall s t,
    In t (alert_times (fst (loop cfg model its s))) ->
    exists it, In it its /\ it_time it = t.
Proof.
  induction its as [|it its IH]; intros s t; simpl; [contradiction|].
  destruct (iteration cfg model it s) as [tr1 c] eqn:E.
  assert (H1 : In t (alert_times tr1) -> it_time it = t).
  { destruct (iteration_alerts cfg model it s tr1 c E)
      as [[-> _] | (-> & _ & _)]; simpl; [contradiction|].
    intros [H | []]. exact H. }
  destruct c as [s1 | s1 | e1]; simpl.
  - specialize (IH s1 t). destruct (loop cfg model its s1) as [tr2 r2].
    simpl in *. rewrite alert_times_app, in_app_iff.
    intros [H | H].
    + exists it. split; [now left | now apply H1].
    + destruct (IH H) as (it' & Hin & Ht). exists it'. split; [now right|].
      assumption.
  - intros H. exists it. split; [now left | now apply H1].
  - intros H. exists it. split; [now left | now apply H1].
Qed.

(** X14: if every clock reading of a run is at most [T], the run starts
    at most [T / alert_cooldown] alert threads: the number of alerts
    times the cooldown does not exceed [T]. *)
Theorem alert_budget (cfg : Settings) (env : Session) (T : Q) :
  (0 <= T)%Q ->
  (forall it, In it (iterations env) -> (it_time it <= T)%Q) ->
  (inject_Z (Z.of_nat (length (alert_times (fst (main cfg env)))))
   * inject_Z (alert_cooldown cfg) <= T)%Q.
Proof.
  intros HT Hin.
  destruct (may_detect cfg env) eqn:E.
  - destruct (main_entered cfg env E) as (src & tr0 & r & _ & Hloop & ->).
    cbn [fst]. simpl. rewrite alert_times_app, finish_alerts, app_nil_r.
    destruct (loop_spaced cfg (Some tt) (iterations env) _ _ _ Hloop)
      as [Hsp _].
    pose proof (spaced_length _ _ _ Hsp) as Hlen.
    pose proof (loop_alert_sources cfg (Some tt) (iterations env)
                  (entry_state 0%nat)) as Hsrc.
    unfold Model in *. rewrite Hloop in Hsrc. cbn [fst] in Hsrc.
    change (last_alert_time (entry_state 0%nat)) with 0%Q in Hlen.
    destruct (alert_times tr0) as [|t ts] eqn:Ea.
    + change (0 * inject_Z (alert_cooldown cfg) <= T)%Q.
      now rewrite Qmult_0_l.
    + assert (Hl : (latest 0 (t :: ts) <= T)%Q).
      { destruct (Hsrc (latest 0 (t :: ts))) as (it & Hit & <-).
        - apply latest_In. discriminate.
        - now apply Hin. }
      set (n := (inject_Z (Z.of_nat (length (t :: ts)))
                 * inject_Z (alert_cooldown cfg))%Q) in *.
      lra.
  - refused_cases cfg env;
      change (0 * inject_Z (alert_cooldown cfg) <= T)%Q;
      now rewrite Qmult_0_l.
Qed.

Lemma alert_budget_witness :
  (inject_Z 2 * inject_Z 60 <= 170)%Q.
Proof.
  apply (alert_budget webcam_settings three_sightings 170).
  - discriminate.
  - simpl. intros it [<- | [<- | [<- | []]]]; discriminate.
Defined.
